(** * Flex GPU scheduler plugin: per-node GPU model, fit finders, Filter and Reserve

    A shallow embedding of [pkg/flexgpu/gpu_node.go] and of the plugin entry
    points ([Filter], [Reserve], [Unreserve]) of the Flex GPU scheduler.

    The Go code manipulates [*resource.Quantity] pointers.  [Add] and [Sub]
    have pointer receivers and update the pointee in place, so the Quantity
    cells reachable from a [gpuNode] are kept in an explicit heap and every
    function that touches them runs in a small state-and-panic monad.
    Logging ([klog]) has no effect on results and is left out.

    The library functions the plugin calls ([resource.Quantity] arithmetic,
    [strconv.Atoi], [strconv.Itoa], [sort.Slice]) are given by what they
    compute, in modules named after their Go packages. *)

From Stdlib Require Import ZArith Lia Ascii.
From stdpp Require Import base option list sorting gmap strings.

Local Open Scope Z_scope.

(** ** Machine integers *)

Definition int64_min : Z := - 2 ^ 63.
Definition int64_max : Z := 2 ^ 63 - 1.

Definition in_int64 (z : Z) : bool := (int64_min <=? z) && (z <=? int64_max).

(** Two's-complement wrap-around of a 64-bit signed result. *)
Definition wrap64 (z : Z) : Z := (z + 2 ^ 63) mod 2 ^ 64 - 2 ^ 63.

(** ** [k8s.io/apimachinery/pkg/api/resource]

    A [Quantity] is an exact decimal number [value * 10 ^ scale].  The Go type
    stores it as an [int64Amount] and falls back to an arbitrary-precision
    decimal when an operation overflows; arithmetic is exact either way, so
    [value] is an unbounded integer here.  [AsInt64] succeeds only for a
    quantity that the Go value holds as an int64 count. *)
Module resource.

Record Quantity := mkQuantity { value : Z; scale : Z }.

#[global] Instance Quantity_eq_dec : EqDecision Quantity.
Proof. solve_decision. Defined.

(** [resource.NewQuantity(v, resource.DecimalSI)] *)
Definition NewQuantity (v : Z) : Quantity := mkQuantity v 0.

(** The zero value [resource.Quantity{}], as read from a map without the key. *)
Definition zero : Quantity := mkQuantity 0 0.

(** [int64Amount.Add]: the result takes the smaller scale, and a zero
    operand leaves the other one as it is. *)
Definition Add (a b : Quantity) : Quantity :=
  if value b =? 0 then a
  else if value a =? 0 then b
  else if scale a =? scale b then mkQuantity (value a + value b) (scale a)
  else if scale b <? scale a
       then mkQuantity (value a * 10 ^ (scale a - scale b) + value b) (scale b)
       else mkQuantity (value a + value b * 10 ^ (scale b - scale a)) (scale a).

(** [int64Amount.Sub] adds the negated amount.  The negation is exact here;
    the Go code negates an int64, which differs for the one subtrahend
    -2^63, a value that no sum of non-negative limits takes. *)
Definition Sub (a b : Quantity) : Quantity :=
  Add a (mkQuantity (- value b) (scale b)).

(** [Quantity.Cmp]: -1, 0 or 1, comparing the two numbers. *)
Definition Cmp (a b : Quantity) : Z :=
  let m := Z.min (scale a) (scale b) in
  match value a * 10 ^ (scale a - m) ?= value b * 10 ^ (scale b - m) with
  | Lt => -1
  | Eq => 0
  | Gt => 1
  end.

Definition CmpInt64 (q : Quantity) (y : Z) : Z := Cmp q (mkQuantity y 0).

Definition IsZero (q : Quantity) : bool := value q =? 0.

(** [Quantity.AsInt64]: no result for a negative scale (fractional digits)
    or for a number outside int64. *)
Definition AsInt64 (q : Quantity) : option Z :=
  if scale q <? 0 then None
  else let v := value q * 10 ^ scale q in
       if in_int64 v then Some v else None.

End resource.

Abbreviation Quantity := resource.Quantity.

#[global] Instance Quantity_inhabited : Inhabited Quantity :=
  populate resource.zero.

(** ** [strconv] *)
Module strconv.

Definition is_digit (c : ascii) : bool :=
  let n := nat_of_ascii c in (48 <=? n)%nat && (n <=? 57)%nat.

Definition digit_val (c : ascii) : Z := Z.of_nat (nat_of_ascii c) - 48.

(** Left-to-right accumulation [n = n*10 + ch]; [None] on a byte that is
    not a decimal digit. *)
Fixpoint digits (s : string) (acc : Z) : option Z :=
  match s with
  | EmptyString => Some acc
  | String c s' =>
      if is_digit c then digits s' (acc * 10 + digit_val c) else None
  end.

(** [strconv.Atoi]: an optional sign, then at least one decimal digit; a
    value outside the 64-bit [int] is a range error. *)
Definition Atoi (s : string) : option Z :=
  match s with
  | EmptyString => None
  | String c s' =>
      let neg := bool_decide (c = "-"%char) in
      let body := if bool_decide (c = "-"%char) || bool_decide (c = "+"%char)
                  then s' else s in
      match body with
      | EmptyString => None
      | _ =>
          match digits body 0 with
          | Some n =>
              let r := if neg then - n else n in
              if in_int64 r then Some r else None
          | None => None
          end
      end
  end.

Definition digit_char (d : Z) : ascii := ascii_of_nat (Z.to_nat (48 + d)).

(** Decimal digits of a positive number, most significant first, pushed in
    front of [acc]. *)
Fixpoint utoa (fuel : nat) (n : Z) (acc : string) : string :=
  match fuel with
  | O => acc
  | S fuel' =>
      let acc' := String (digit_char (n mod 10)) acc in
      if n <? 10 then acc' else utoa fuel' (n / 10) acc'
  end.

(** [strconv.Itoa]: base 10, a leading minus sign for a negative number.
    A 64-bit value has at most 19 digits. *)
Definition Itoa (i : Z) : string :=
  if i <? 0 then String "-"%char (utoa 20 (- i) EmptyString)
  else utoa 20 i EmptyString.

End strconv.

(** ** Kubernetes objects, as far as the plugin reads them *)

(** [container.Resources.Limits] *)
Record Container := mkContainer { Limits : gmap string Quantity }.

(** [pod.Spec.Containers] and [pod.ObjectMeta.Annotations]; the annotation
    map may be [nil]. *)
Record Pod := mkPod {
  Containers : list Container;
  Annotations : option (gmap string string)
}.

(** [nodeInfo.Node().Status.Allocatable] and the pods placed on the node
    ([nodeInfo.Pods]).  The node object itself is always there when the
    framework calls the plugin. *)
Record NodeInfo := mkNodeInfo {
  Allocatable : gmap string Quantity;
  Pods : list Pod
}.

Definition GPUResourceName : string := "nvidia.flex.com/gpu".
Definition MemResourceName : string := "nvidia.flex.com/memory".
Definition GPUIndexAnnotationKey : string := "nvidia.flex.com/index".

(** [framework.Code] and [framework.Status]; a [nil] status is [None]. *)
Inductive Code :=
  | Success | Error | Unschedulable | UnschedulableAndUnresolvable.

Record Status := NewStatus { code : Code; reason : string }.

(** [val, ok := pod.ObjectMeta.Annotations[key]]: the empty string and
    [false] when the key (or the map) is absent. *)
Definition lookupAnnotation (pod : Pod) (key : string) : string * bool :=
  match Annotations pod ≫= (λ m, m !! key) with
  | Some v => (v, true)
  | None => (EmptyString, false)
  end.

(** [p.Annotations[key] = v], after [make] when the map is [nil]. *)
Definition setAnnotation (p : Pod) (key v : string) : Pod :=
  mkPod (Containers p) (Some (<[key := v]> (default ∅ (Annotations p)))).

(** The sum of a resource's limits over the containers of a pod, and whether
    any container declares it.  The Go function returns a pointer to a
    quantity it has just allocated; no caller stores that pointer in a
    [gpuNode], so the sum is returned by value. *)
Definition podResourceLimit (name : string) (pod : Pod) : Quantity * bool :=
  foldl (λ acc container,
           match Limits container !! name with
           | Some q => (resource.Add acc.1 q, true)
           | None => acc
           end)
        (resource.NewQuantity 0, false) (Containers pod).

Definition nodeResourceLimitSum (name : string) (nodeInfo : NodeInfo) : Quantity :=
  foldl (λ sum pod, resource.Add sum (podResourceLimit name pod).1)
        (resource.NewQuantity 0) (Pods nodeInfo).

(** ** The heap of quantities and the monad of the model code *)

Abbreviation loc := nat.
Abbreviation Heap := (list Quantity).

(** A call returns, or it panics: with the text of an explicit [panic], or
    with a short name of the Go runtime error. *)
Inductive Res (A : Type) :=
  | Ok (a : A)
  | Panic (msg : string).
Arguments Ok {A} a.
Arguments Panic {A} msg.

Definition M (A : Type) : Type := Heap → Res (A * Heap).

#[global] Instance M_ret : MRet M := λ A a h, Ok (a, h).

#[global] Instance M_bind : MBind M := λ A B f m h,
  match m h with
  | Ok (a, h') => f a h'
  | Panic msg => Panic msg
  end.

Definition panic {A} (msg : string) : M A := λ _, Panic msg.

Definition nil_deref : string :=
  "invalid memory address or nil pointer dereference".

(** A fresh cell, as [resource.NewQuantity] returns. *)
Definition new (q : Quantity) : M loc := λ h, Ok (length h, h ++ [q]).

Definition load (l : loc) : M Quantity := λ h,
  match h !! l with
  | Some q => Ok (q, h)
  | None => Panic nil_deref
  end.

Definition store (l : loc) (q : Quantity) : M unit := λ h,
  match h !! l with
  | Some _ => Ok ((), <[l := q]> h)
  | None => Panic nil_deref
  end.

(** [func (q *Quantity) Add(y Quantity)] and [Sub]: the pointee is updated. *)
Definition Quantity_Add (q : loc) (y : Quantity) : M unit :=
  v ← load q; store q (resource.Add v y).

Definition Quantity_Sub (q : loc) (y : Quantity) : M unit :=
  v ← load q; store q (resource.Sub v y).

(** A [for _, x := range l] loop that carries [a]. *)
Fixpoint foldM {A B} (f : A → B → M A) (a : A) (l : list B) : M A :=
  match l with
  | [] => mret a
  | x :: l' => a' ← f a x; foldM f a' l'
  end.

(** [l[i]] with Go's bounds check. *)
Definition at_index {A} (l : list A) (i : Z) : M A :=
  match (if 0 <=? i then l !! Z.to_nat i else None) with
  | Some x => mret x
  | None => panic "index out of range"
  end.

(** A computation started on its own, empty heap: every quantity cell of a
    [gpuNode] is allocated by the call that builds the node. *)
Definition run {A} (m : M A) : Res A :=
  match m [] with
  | Ok (a, _) => Ok a
  | Panic msg => Panic msg
  end.

(** ** [gpu_node.go] *)

Record gpu := mkGpu {
  index : Z;
  monopoly : bool;
  memory : loc;
  usedMemory : loc
}.

(** [gpuCount] and [memoryTotal] point to copies local to [NewGPUNode] that
    nothing else refers to; they are kept by value.  Each element of [gpus]
    is a struct of its own, so the slice of pointers is a list of records. *)
Record gpuNode := mkGpuNode {
  gpuCount : Quantity;
  memoryTotal : Quantity;
  gpus : list gpu
}.

(** The first loop of [constructGPUs]: slot [i] gets a new zero [usedMemory]
    cell and the one [memEachGPU] pointer that all slots share. *)
Fixpoint newGPUs (n : nat) (i : Z) (memEachGPU : loc) : M (list gpu) :=
  match n with
  | O => mret []
  | S n' =>
      used ← new (resource.NewQuantity 0);
      rest ← newGPUs n' (i + 1) memEachGPU;
      mret (mkGpu i false memEachGPU used :: rest)
  end.

Definition setMonopoly (u : gpu) : gpu :=
  mkGpu (index u) true (memory u) (usedMemory u).

(** The body of the second loop of [constructGPUs]. *)
Definition placePod (gpus : list gpu) (pod : Pod) : M (list gpu) :=
  let '(gpuLimit, gpuExist) := podResourceLimit GPUResourceName pod in
  let '(memLimit, memExist) := podResourceLimit MemResourceName pod in
  if negb gpuExist && negb memExist then mret gpus
  else
    let '(val, hasAnnotation) := lookupAnnotation pod GPUIndexAnnotationKey in
    match strconv.Atoi val with
    | None => mret gpus
    | Some index =>
        if negb hasAnnotation then mret gpus
        else
          gpus ← (if gpuExist
                   then u ← at_index gpus index;
                        mret (<[Z.to_nat index := setMonopoly u]> gpus)
                   else mret gpus);
          (if memExist
           then u ← at_index gpus index;
                Quantity_Add (usedMemory u) memLimit
           else mret ());;
          mret gpus
    end.

(** [make([]*gpu, cnt)] panics for a negative length and for one whose
    8-byte elements take more than [maxAlloc], which is 2^48 bytes on the
    64-bit platforms.  Below that bound the runtime needs the memory to be
    there and stops with a fatal error, not a panic, when it is not; the heap
    here never runs out. *)
Definition maxSliceLen : Z := 2 ^ 48 / 8.

Definition constructGPUs (cnt : Z) (memEachGPU : loc) (pods : list Pod)
  : M (list gpu) :=
  if (cnt <? 0) || (maxSliceLen <? cnt) then panic "makeslice: len out of range"
  else
    gpus ← newGPUs (Z.to_nat cnt) 0 memEachGPU;
    foldM placePod gpus pods.

Definition NewGPUNode (nodeInfo : NodeInfo) : M gpuNode :=
  let pods := Pods nodeInfo in
  let gpuAllocatable :=
    default resource.zero (Allocatable nodeInfo !! GPUResourceName) in
  match resource.AsInt64 gpuAllocatable with
  | None => panic "invalid gpu resource format"
  | Some gpuCnt =>
      let memAllocatable :=
        default resource.zero (Allocatable nodeInfo !! MemResourceName) in
      match resource.AsInt64 memAllocatable with
      | None => panic "invalid memory resource format"
      | Some memCnt =>
          if gpuCnt =? 0 then panic "integer divide by zero"
          else
            memEachGPU ← new (resource.NewQuantity (wrap64 (Z.quot memCnt gpuCnt)));
            gpus ← constructGPUs gpuCnt memEachGPU pods;
            mret (mkGpuNode gpuAllocatable memAllocatable gpus)
      end
  end.

(** ** [sort] *)
Module sort.

(** Moves [x] towards the front of the already ordered prefix, given back
    to front, while it is less than its predecessor:
    [for j := i; j > a && less(j, j-1); j-- { swap(j, j-1) }]. *)
Fixpoint insert {A} (less : A → A → bool) (x : A) (rev_prefix : list A)
  : list A :=
  match rev_prefix with
  | [] => [x]
  | y :: ys => if less x y then y :: insert less x ys else x :: y :: ys
  end.

(** [insertionSort], the algorithm [sort.Slice] runs on a slice of at most
    12 elements.  On a longer slice the Go library may order elements that
    compare equal differently. *)
Definition Slice {A} (less : A → A → bool) (l : list A) : list A :=
  rev (foldl (λ rev_prefix x, insert less x rev_prefix) [] l).

End sort.

(** ** The fit finders *)

(** The local [type fit struct] of [MemAssumeFitIndexes]; [remain] is a
    pointer. *)
Record fit := mkFit { fit_index : Z; remain : loc }.

(** The loop body of [MemAssumeFitIndexes].  [assumed := u.usedMemory] and
    [remain := u.memory] copy pointers, so [assumed.Add] writes the unit's
    [usedMemory] cell and [remain.Sub] writes its [memory] cell. *)
Definition memFitStep (memLimit : Quantity) (fits : list fit) (u : gpu)
  : M (list fit) :=
  let assumed := usedMemory u in
  Quantity_Add assumed memLimit;;
  if monopoly u then mret fits
  else
    a ← load assumed;
    m ← load (memory u);
    if 0 <=? resource.Cmp m a then
      let remain := memory u in
      a ← load assumed;
      Quantity_Sub remain a;;
      mret (fits ++ [mkFit (index u) remain])
    else mret fits.

(** [fits[i].remain.Cmp( *fits[j].remain) < 0], read in the heap as it is
    when the slice is sorted. *)
Definition lessRemain (h : Heap) (a b : fit) : bool :=
  resource.Cmp (h !!! remain a) (h !!! remain b) <? 0.

Definition sortFits (fits : list fit) : M (list fit) := λ h,
  Ok (sort.Slice (lessRemain h) fits, h).

Definition MemAssumeFitIndexes (n : gpuNode) (memLimit : Quantity)
  : M (list Z) :=
  fits ← foldM (memFitStep memLimit) [] (gpus n);
  fits ← sortFits fits;
  mret (fit_index <$> fits).

(** The loop body of [GPUAssumeFitIndexes]; [usedMemory] is read for every
    unit, by the conflict warning or by [IsZero]. *)
Definition gpuFitStep (fits : list Z) (u : gpu) : M (list Z) :=
  used ← load (usedMemory u);
  if negb (monopoly u) && resource.IsZero used
  then mret (fits ++ [index u])
  else mret fits.

Definition GPUAssumeFitIndexes (n : gpuNode) (gpuLimit : Quantity)
  : M (list Z) :=
  foldM gpuFitStep [] (gpus n).

(** ** The scores *)

(** The loop body of [GPUScore]: [!u.monopoly && u.usedMemory.IsZero()]
    does not read the used memory of a locked unit. *)
Definition gpuScoreStep (cnt : Z) (u : gpu) : M Z :=
  if monopoly u then mret cnt
  else
    used ← load (usedMemory u);
    if resource.IsZero used then mret (cnt + 1) else mret cnt.

(** [GPUScore]: the number of units an exclusive request could take. *)
Definition GPUScore (n : gpuNode) : M Z := foldM gpuScoreStep 0 (gpus n).



(** ** The plugin: [Filter], [Reserve], [Unreserve] *)

Definition Filter (pod : Pod) (nodeInfo : NodeInfo) : M (option Status) :=
  let '(gpuLimit, gpuLimitExist) := podResourceLimit GPUResourceName pod in
  let '(memLimit, memLimitExist) := podResourceLimit MemResourceName pod in
  if negb gpuLimitExist && negb memLimitExist then mret None
  else if gpuLimitExist && memLimitExist
  then mret (Some (NewStatus UnschedulableAndUnresolvable "pod conflict resources"))
  else
    match Allocatable nodeInfo !! GPUResourceName with
    | None => mret (Some (NewStatus UnschedulableAndUnresolvable "unknown resource type"))
    | Some gpuAllocatable =>
    match Allocatable nodeInfo !! MemResourceName with
    | None => mret (Some (NewStatus UnschedulableAndUnresolvable "unknown resource type"))
    | Some memAllocatable =>
        let gpuAssumeLimitSum :=
          resource.Add (nodeResourceLimitSum GPUResourceName nodeInfo) gpuLimit in
        let memAssumeLimitSum :=
          resource.Add (nodeResourceLimitSum MemResourceName nodeInfo) memLimit in
        if 0 <? resource.Cmp gpuAssumeLimitSum gpuAllocatable
        then mret (Some (NewStatus Unschedulable
                           ("insufficient resource " +:+ GPUResourceName)))
        else if 0 <? resource.Cmp memAssumeLimitSum memAllocatable
        then mret (Some (NewStatus Unschedulable
                           ("insufficient resource " +:+ MemResourceName)))
        else
          no ← NewGPUNode nodeInfo;
          if memLimitExist then
            indexes ← MemAssumeFitIndexes no memLimit;
            if bool_decide (length indexes = 0%nat)
            then mret (Some (NewStatus Unschedulable
                               ("no fit indexes resource " +:+ MemResourceName)))
            else mret None
          else mret None
    end
    end.

(** [%q] of a string without characters that need escaping. *)
Definition quote (s : string) : string :=
  let dq := ascii_of_nat 34 in String dq (s +:+ String dq EmptyString).

(** [Reserve].  [lister] stands for
    [f.handle.SnapshotSharedLister().NodeInfos().Get], which gives the node or
    an error text.  The result carries the pod as the call leaves it. *)
Definition Reserve (lister : string → NodeInfo + string) (p : Pod)
  (nodeName : string) : M (option Status * Pod) :=
  match lister nodeName with
  | inr err =>
      mret (Some (NewStatus Error
                    ("getting node " +:+ quote nodeName +:+ " from Snapshot: " +:+ err)), p)
  | inl nodeInfo =>
      let '(gpuLimit, gpuLimitExist) := podResourceLimit GPUResourceName p in
      let '(memLimit, memLimitExist) := podResourceLimit MemResourceName p in
      if negb gpuLimitExist && negb memLimitExist then mret (None, p)
      else if gpuLimitExist && memLimitExist
      then mret (Some (NewStatus UnschedulableAndUnresolvable "pod conflict resources"), p)
      else
        no ← NewGPUNode nodeInfo;
        r ← (if gpuLimitExist then
               indexes ← GPUAssumeFitIndexes no gpuLimit;
               match indexes with
               | [] => mret (inl (NewStatus Unschedulable
                                    ("allocate index fail " +:+ GPUResourceName)))
               | i0 :: _ =>
                   mret (inr (setAnnotation p GPUIndexAnnotationKey (strconv.Itoa i0)))
               end
             else mret (inr p));
        match r with
        | inl st => mret (Some st, p)
        | inr p1 =>
            if memLimitExist then
              indexes ← MemAssumeFitIndexes no memLimit;
              match indexes with
              | [] => mret (Some (NewStatus Unschedulable
                                    ("allocate index fail " +:+ MemResourceName)), p1)
              | i0 :: _ =>
                  mret (None, setAnnotation p1 GPUIndexAnnotationKey (strconv.Itoa i0))
              end
            else mret (None, p1)
        end
  end.

(** [Unreserve]: [delete(p.Annotations, GPUIndexAnnotationKey)], which does
    nothing on a [nil] map. *)
Definition Unreserve (p : Pod) : Pod :=
  mkPod (Containers p) (delete GPUIndexAnnotationKey <$> Annotations p).

(** ** The plugin before [gpu_node.go]

    The plugin file begins with its earlier version, in which [Filter] keeps
    the per-unit usage itself and there is neither a [gpuNode] nor a
    [Reserve].  [podResourceLimitSum] is [podResourceLimit] under its earlier
    name, and [podsResourceLimitSum] sums over a slice of pods. *)
Module Legacy.

Definition podResourceLimitSum (name : string) (pod : Pod) : Quantity * bool :=
  foldl (λ acc container,
           match Limits container !! name with
           | Some q => (resource.Add acc.1 q, true)
           | None => acc
           end)
        (resource.NewQuantity 0, false) (Containers pod).

Definition podsResourceLimitSum (name : string) (pods : list Pod) : Quantity :=
  foldl (λ sum pod, resource.Add sum (podResourceLimitSum name pod).1)
        (resource.NewQuantity 0) pods.

(** [memory] is the memory in use; the capacity of a unit is not stored. *)
Record gpuUsage := mkGpuUsage {
  index : Z;
  monopoly : bool;
  memory : loc
}.

(** The first loop of [resourceLimitSumIndexArray]. *)
Fixpoint newUsage (n : nat) (i : Z) : M (list gpuUsage) :=
  match n with
  | O => mret []
  | S n' =>
      m ← new (resource.NewQuantity 0);
      rest ← newUsage n' (i + 1);
      mret (mkGpuUsage i false m :: rest)
  end.

Definition setMonopoly (u : gpuUsage) : gpuUsage :=
  mkGpuUsage (index u) true (memory u).

(** The body of the second loop of [resourceLimitSumIndexArray]. *)
Definition placePod (usage : list gpuUsage) (pod : Pod) : M (list gpuUsage) :=
  let '(gpuLimit, gpuExist) := podResourceLimitSum GPUResourceName pod in
  let '(memLimit, memExist) := podResourceLimitSum MemResourceName pod in
  if negb gpuExist && negb memExist then mret usage
  else
    let '(val, hasAnnotation) := lookupAnnotation pod GPUIndexAnnotationKey in
    match strconv.Atoi val with
    | None => mret usage
    | Some index =>
        if negb hasAnnotation then mret usage
        else
          usage ← (if gpuExist
                    then u ← at_index usage index;
                         mret (<[Z.to_nat index := setMonopoly u]> usage)
                    else mret usage);
          (if memExist
           then u ← at_index usage index;
                Quantity_Add (memory u) memLimit
           else mret ());;
          mret usage
    end.

Definition resourceLimitSumIndexArray (cnt : Z) (pods : list Pod)
  : M (list gpuUsage) :=
  if (cnt <? 0) || (maxSliceLen <? cnt) then panic "makeslice: len out of range"
  else
    usage ← newUsage (Z.to_nat cnt) 0;
    foldM placePod usage pods.

(** The body of the loop of [Filter] that counts the units with room:
    [u.memory.Add( *memLimit)] writes the unit's cell, then
    [!u.monopoly && memEachGPU.Cmp( *u.memory) >= 0]. *)
Definition fitStep (memEachGPU : loc) (memLimit : Quantity) (fit : Z)
  (u : gpuUsage) : M Z :=
  Quantity_Add (memory u) memLimit;;
  if monopoly u then mret fit
  else
    cap ← load memEachGPU;
    m ← load (memory u);
    if 0 <=? resource.Cmp cap m then mret (fit + 1) else mret fit.

(** [Filter].  The second [ok] of the memory resource is the one of
    [AsInt64], so a node without the memory resource counts as one with
    memory 0, and the test for an unknown memory resource never fires.
    [memEachGPU] is the quantity [resource.NewQuantity] allocates. *)
Definition Filter (pod : Pod) (nodeInfo : NodeInfo) : M (option Status) :=
  let '(gpuLimit, gpuLimitExist) := podResourceLimitSum GPUResourceName pod in
  let '(memLimit, memLimitExist) := podResourceLimitSum MemResourceName pod in
  if negb gpuLimitExist && negb memLimitExist then mret None
  else if gpuLimitExist && memLimitExist
  then mret (Some (NewStatus UnschedulableAndUnresolvable "pod conflict resources"))
  else
    match Allocatable nodeInfo !! GPUResourceName with
    | None => mret (Some (NewStatus UnschedulableAndUnresolvable "unknown resource type"))
    | Some gpuAllocatable =>
    match resource.AsInt64 gpuAllocatable with
    | None => panic "invalid gpu resource format"
    | Some gpuCnt =>
    let memAllocatable :=
      default resource.zero (Allocatable nodeInfo !! MemResourceName) in
    match resource.AsInt64 memAllocatable with
    | None => panic "invalid memory resource format"
    | Some memCnt =>
        if gpuCnt =? 0 then panic "integer divide by zero"
        else
          memEachGPU ← new (resource.NewQuantity (wrap64 (Z.quot memCnt gpuCnt)));
          let pods := Pods nodeInfo in
          let gpuAssumeLimitSum :=
            resource.Add (podsResourceLimitSum GPUResourceName pods) gpuLimit in
          let memAssumeLimitSum :=
            resource.Add (podsResourceLimitSum MemResourceName pods) memLimit in
          if 0 <? resource.Cmp gpuAssumeLimitSum gpuAllocatable
          then mret (Some (NewStatus Unschedulable "insufficient resource"))
          else if 0 <? resource.Cmp memAssumeLimitSum memAllocatable
          then mret (Some (NewStatus Unschedulable "insufficient resource"))
          else
            usage ← resourceLimitSumIndexArray gpuCnt pods;
            fit ← foldM (fitStep memEachGPU memLimit) 0 usage;
            if fit =? 0
            then mret (Some (NewStatus Unschedulable "insufficient resource"))
            else mret None
    end
    end
    end.

End Legacy.

(** ** Reading a model

    The unit of the specification: index, exclusive lock, capacity and used
    memory, the last two read through the unit's pointers. *)
Record Unit := mkUnit {
  unitIndex : Z;
  exclusiveLock : bool;
  capacityBytes : Quantity;
  usedBytes : Quantity
}.

Definition viewGPU (h : Heap) (u : gpu) : Unit :=
  mkUnit (index u) (monopoly u) (h !!! memory u) (h !!! usedMemory u).

Definition view (h : Heap) (n : gpuNode) : list Unit := viewGPU h <$> gpus n.

(** The model a call rebuilds for a node: [NewGPUNode] on a heap of its own,
    read back as units. *)
Definition rebuild (nodeInfo : NodeInfo) : Res (list Unit) :=
  match NewGPUNode nodeInfo [] with
  | Ok (n, h) => Ok (view h n)
  | Panic msg => Panic msg
  end.

(** ** Pods and machines for the examples

    A pod with one container and one limit, annotated or not, and a machine
    with integer allocatable quantities. *)

Definition limitPod (name : string) (q : Z) (ann : option string) : Pod :=
  mkPod [mkContainer {[ name := resource.NewQuantity q ]}]
        ((λ v, {[ GPUIndexAnnotationKey := v ]}) <$> ann).

Definition machine (gpuCnt memCnt : Z) (pods : list Pod) : NodeInfo :=
  mkNodeInfo (<[GPUResourceName := resource.NewQuantity gpuCnt]>
               {[ MemResourceName := resource.NewQuantity memCnt ]}) pods.

(** ** The specification's shared-memory fit, in its own words

    Follows the spec (section 4.3), not the code: for every unit without the
    exclusive lock, [assumedUsed = usedBytes + requested]; the unit is a
    candidate if [assumedUsed <= capacityBytes]; candidates are ordered by
    ascending headroom [capacityBytes - assumedUsed], ties by ascending unit
    index.  It is compared with [MemAssumeFitIndexes] below. *)
Module Spec.

Definition headroom (requested : Quantity) (u : Unit) : Quantity :=
  resource.Sub (capacityBytes u) (resource.Add (usedBytes u) requested).

Definition candidate (requested : Quantity) (u : Unit) : bool :=
  negb (exclusiveLock u)
  && (resource.Cmp (resource.Add (usedBytes u) requested) (capacityBytes u) <=? 0).

Definition tighter (requested : Quantity) (a b : Unit) : bool :=
  match resource.Cmp (headroom requested a) (headroom requested b) with
  | 0 => unitIndex a <? unitIndex b
  | c => c <? 0
  end.

Definition sharedFit (units : list Unit) (requested : Quantity) : list Z :=
  unitIndex <$>
    sort.Slice (tighter requested)
      (List.filter (candidate requested) units).

End Spec.

(** ** Predicates of the statements *)

(** Whether some container of the pod declares a limit for the resource. *)
Definition declared (name : string) (pod : Pod) : Prop :=
  ∃ c, c ∈ Containers pod ∧ is_Some (Limits c !! name).

(** Whether the pod declares exactly one of the two resources. *)
Definition declaresOne (p : Pod) : Prop :=
  (declared GPUResourceName p ∧ ¬ declared MemResourceName p)
  ∨ (¬ declared GPUResourceName p ∧ declared MemResourceName p).

(** The slot a placed pod charges: none when it declares neither resource or
    carries no index annotation that [Atoi] accepts. *)
Definition target (pod : Pod) : option Z :=
  if negb (podResourceLimit GPUResourceName pod).2
     && negb (podResourceLimit MemResourceName pod).2
  then None
  else
    match strconv.Atoi (lookupAnnotation pod GPUIndexAnnotationKey).1 with
    | None => None
    | Some i => if negb (lookupAnnotation pod GPUIndexAnnotationKey).2 then None else Some i
    end.

(** The index annotation of the pod, when [Atoi] accepts it, points into a
    slice of [cnt] units. *)
Definition annotationInRange (cnt : Z) (pod : Pod) : Prop :=
  ∀ i, strconv.Atoi (lookupAnnotation pod GPUIndexAnnotationKey).1 = Some i →
       0 ≤ i < cnt.

(** What [GPUAssumeFitIndexes] needs of a model: slot [k] carries index [k]
    and its [usedMemory] pointer is allocated. *)
Definition indexed (h : Heap) (gpus : list gpu) : Prop :=
  ∀ k u, gpus !! k = Some u →
         index u = Z.of_nat k ∧ is_Some (h !! usedMemory u).

(** The shape [constructGPUs] gives a model and keeps while it places pods:
    slot [k] has index [k], the shared [memory] pointer [mem] and its own
    [usedMemory] cell [base + k]. *)
Definition built (mem base : loc) (h : Heap) (gpus : list gpu) : Prop :=
  (mem < base)%nat ∧ length h = (base + length gpus)%nat ∧
  ∀ k u, gpus !! k = Some u →
         index u = Z.of_nat k ∧ memory u = mem ∧ usedMemory u = (base + k)%nat.

(** A unit an exclusive request may take: no exclusive lock and nothing
    used, [!u.monopoly && u.usedMemory.IsZero()]. *)
Definition idle (u : Unit) : bool :=
  negb (exclusiveLock u) && resource.IsZero (usedBytes u).

(** The sum of the units' capacities, for integer capacities. *)
Definition sumCapacity (units : list Unit) : Z :=
  foldr (λ u s, resource.value (capacityBytes u) + s) 0 units.

(** The list [MemAssumeFitIndexes] returns on a model with shared capacity
    cell: the units are tried in slice order against the capacity that the
    earlier candidates have left in the cell. *)
Fixpoint firstFit (requested cap : Quantity) (units : list Unit) : list Z :=
  match units with
  | [] => []
  | u :: us =>
      let assumed := resource.Add (usedBytes u) requested in
      if negb (exclusiveLock u) && (0 <=? resource.Cmp cap assumed)
      then unitIndex u :: firstFit requested (resource.Sub cap assumed) us
      else firstFit requested cap us
  end.

(** The shared-memory fit on the model just built for a node. *)
Definition fitOn (nodeInfo : NodeInfo) (memLimit : Quantity) : Res (list Z) :=
  run (n ← NewGPUNode nodeInfo; MemAssumeFitIndexes n memLimit).

(** ** What the placed pods charge to a unit *)

(** Whether the pod charges slot [k]. *)
Definition charges (k : Z) (pod : Pod) : bool :=
  bool_decide (target pod = Some k).

(** One placed pod's effect on the lock and on the used memory of slot [k]. *)
Definition lockStep (k : Z) (locked : bool) (pod : Pod) : bool :=
  locked || (charges k pod && (podResourceLimit GPUResourceName pod).2).

Definition usedStep (k : Z) (used : Quantity) (pod : Pod) : Quantity :=
  if charges k pod && (podResourceLimit MemResourceName pod).2
  then resource.Add used (podResourceLimit MemResourceName pod).1
  else used.

(** The lock and the used memory that a list of placed pods gives slot [k]. *)
Definition lockedBy (k : Z) (pods : list Pod) : bool :=
  foldl (lockStep k) false pods.

Definition usedBy (k : Z) (pods : list Pod) : Quantity :=
  foldl (usedStep k) (resource.NewQuantity 0) pods.

(** The unit of slot [j] after one more pod has been placed. *)
Definition placeUnit (j : Z) (pod : Pod) (u : Unit) : Unit :=
  mkUnit (unitIndex u) (lockStep j (exclusiveLock u) pod) (capacityBytes u)
         (usedStep j (usedBytes u) pod).

(** The unit once an exclusive workload holds it, and once a shared workload
    of the given size has been added to it. *)
Definition lockUnit (u : Unit) : Unit :=
  mkUnit (unitIndex u) true (capacityBytes u) (usedBytes u).

Definition chargeUnit (memLimit : Quantity) (u : Unit) : Unit :=
  mkUnit (unitIndex u) (exclusiveLock u) (capacityBytes u)
         (resource.Add (usedBytes u) memLimit).

(** The pod with the recorded index, if [Reserve] has recorded one. *)
Definition recordIndex (d : option string) (p : Pod) : Pod :=
  match d with
  | Some v => setAnnotation p GPUIndexAnnotationKey v
  | None => p
  end.

(** ** Totals of a model and of the limits *)



(** Both pointers of every unit are allocated. *)
Definition allocated (h : Heap) (gpus : list gpu) : Prop :=
  ∀ u, u ∈ gpus → is_Some (h !! memory u) ∧ is_Some (h !! usedMemory u).

(** A unit without exclusive lock whose used memory plus the request is
    within the capacity [cap]. *)
Definition roomy (requested cap : Quantity) (u : Unit) : bool :=
  negb (exclusiveLock u)
  && (0 <=? resource.Cmp cap (resource.Add (usedBytes u) requested)).

(** The limits of a resource as integers: of a container (0 without the
    limit), of a pod, and of the pods placed on a node. *)
Definition limitValue (name : string) (c : Container) : Z :=
  from_option resource.value 0 (Limits c !! name).

Definition podLimitValue (name : string) (pod : Pod) : Z :=
  foldr (λ c s, limitValue name c + s) 0 (Containers pod).

Definition nodeLimitValue (name : string) (nodeInfo : NodeInfo) : Z :=
  foldr (λ pod s, podLimitValue name pod + s) 0 (Pods nodeInfo).

(** Every limit the pod declares for the resource is a whole number. *)
Definition integerLimits (name : string) (pod : Pod) : Prop :=
  ∀ c q, c ∈ Containers pod → Limits c !! name = Some q → resource.scale q = 0.

(** ** The earlier version, unit by unit *)

(** A unit of the earlier version, read off a unit of the model: the used
    memory is all that the earlier version stores. *)
Definition usageOf (g : gpu) : Legacy.gpuUsage :=
  Legacy.mkGpuUsage (index g) (monopoly g) (usedMemory g).

(** ** Machines and pods of the examples *)

(** A model of two units written out by hand: the shared capacity cell
    holds 8, unit 0 has 7 used and unit 1 nothing. *)
Definition sampleHeap : Heap :=
  [resource.NewQuantity 8; resource.NewQuantity 7; resource.NewQuantity 0].

Definition sampleNode : gpuNode :=
  mkGpuNode (resource.NewQuantity 2) (resource.NewQuantity 16)
            [mkGpu 0 false 0%nat 1%nat; mkGpu 1 false 0%nat 2%nat].

(** Two units of capacity 8; unit 0 already holds 7. *)
Definition scenarioMachine : NodeInfo :=
  machine 2 16 [limitPod MemResourceName 7 (Some "0")].

(** A pod that declares neither resource, and one that declares both. *)
Definition plainPod : Pod := mkPod [mkContainer ∅] None.

(** A pod that declares neither resource and carries index 7. *)
Definition strayPod : Pod :=
  mkPod [mkContainer ∅] (Some {[ GPUIndexAnnotationKey := "7"%string ]}).

Definition conflictPod : Pod :=
  mkPod [mkContainer {[ GPUResourceName := resource.NewQuantity 1 ]};
         mkContainer {[ MemResourceName := resource.NewQuantity 4 ]}] None.

(** A node whose unit count, 10E (ten times 10^18), is an integer that
    int64 cannot hold. *)
Definition malformedMachine : NodeInfo :=
  mkNodeInfo (<[GPUResourceName := resource.mkQuantity 10 18]>
               {[ MemResourceName := resource.NewQuantity 16 ]}) [].

(** Two units of capacity 8; unit 1 already holds 5. *)
Definition tightMachine : NodeInfo :=
  machine 2 16 [limitPod MemResourceName 5 (Some "1")].

(** Two units of capacity 10; unit 1 already holds 5. *)
Definition roomyMachine : NodeInfo :=
  machine 2 20 [limitPod MemResourceName 5 (Some "1")].

(** One idle unit of capacity 8. *)
Definition singleMachine : NodeInfo := machine 1 8 [].

(** The workloads A to E of the specification's scenario. *)
Definition podA : Pod := limitPod MemResourceName 5 None.
Definition podB : Pod := limitPod MemResourceName 2 None.
Definition podC : Pod := limitPod GPUResourceName 1 None.
Definition podD : Pod := limitPod MemResourceName 1 None.
Definition podE : Pod := limitPod MemResourceName 1 None.

(** [Reserve] on the scenario's machine with the given pods placed. *)
Definition reserveOn (pods : list Pod) (p : Pod) : Res (option Status * Pod) :=
  run (Reserve (λ _, inl (machine 2 16 pods)) p "node").

(** The pod with the index recorded for it. *)
Definition placed (p : Pod) (i : string) : Pod :=
  setAnnotation p GPUIndexAnnotationKey i.

(** One unit of capacity 8 that already holds 1. *)
Definition busyMachine : NodeInfo :=
  machine 1 8 [limitPod MemResourceName 1 (Some "0")].

(** * Proofs *)

(** ** The monad *)

Lemma bind_Ok {A B} (m : M A) (f : A → M B) h a h' :
  m h = Ok (a, h') → (m ≫= f) h = f a h'.
Proof. intros E. unfold mbind, M_bind. by rewrite E. Qed.

Lemma bind_Panic {A B} (m : M A) (f : A → M B) h msg :
  m h = Panic msg → (m ≫= f) h = Panic msg.
Proof. intros E. unfold mbind, M_bind. by rewrite E. Qed.

Lemma bind_inv_Ok {A B} (m : M A) (f : A → M B) h r :
  (m ≫= f) h = Ok r → ∃ a h', m h = Ok (a, h') ∧ f a h' = Ok r.
Proof.
  unfold mbind, M_bind. destruct (m h) as [[a h']|msg]; [|done].
  intros E. by exists a, h'.
Qed.

Lemma foldM_app {A B} (f : A → B → M A) l1 l2 a h :
  foldM f a (l1 ++ l2) h = (foldM f a l1 ≫= λ a', foldM f a' l2) h.
Proof.
  revert a h. induction l1 as [|x l1 IH]; intros a h; [reflexivity|].
  simpl. unfold mbind, M_bind.
  destruct (f a x h) as [[a' h']|msg]; [|done]. rewrite IH. reflexivity.
Qed.

(** A loop whose body does nothing on an element skips it. *)
Lemma foldM_skip {A B} (f : A → B → M A) l1 x l2 a h :
  (∀ a', f a' x = mret a') →
  foldM f a (l1 ++ x :: l2) h = foldM f a (l1 ++ l2) h.
Proof.
  intros Hx. rewrite !foldM_app. unfold mbind, M_bind.
  destruct (foldM f a l1 h) as [[a' h']|msg]; [|done].
  simpl. rewrite Hx. reflexivity.
Qed.

Lemma load_Ok (h : Heap) l q : h !! l = Some q → load l h = Ok (q, h).
Proof. intros E. unfold load. by rewrite E. Qed.

Lemma lookup_total_Some (h : Heap) l q : h !! l = Some q → h !!! l = q.
Proof. intros E. by rewrite list_lookup_total_alt, E. Qed.

Lemma Quantity_Add_Ok (h : Heap) l v y :
  h !! l = Some v → Quantity_Add l y h = Ok ((), <[l := resource.Add v y]> h).
Proof. intros E. unfold Quantity_Add, mbind, M_bind, load, store. by rewrite E, E. Qed.

Lemma Quantity_Sub_Ok (h : Heap) l v y :
  h !! l = Some v → Quantity_Sub l y h = Ok ((), <[l := resource.Sub v y]> h).
Proof. intros E. unfold Quantity_Sub, mbind, M_bind, load, store. by rewrite E, E. Qed.

Lemma at_index_Some {A} (l : list A) i x (h : Heap) :
  0 ≤ i → l !! Z.to_nat i = Some x → at_index l i h = Ok (x, h).
Proof.
  intros Hi E. unfold at_index.
  destruct (Z.leb_spec 0 i); [|lia]. by rewrite E.
Qed.

Lemma at_index_None {A} (l : list A) i (h : Heap) :
  ¬ (0 ≤ i < Z.of_nat (length l)) → at_index l i h = Panic "index out of range".
Proof.
  intros Hi. unfold at_index.
  destruct (Z.leb_spec 0 i); [|done].
  rewrite (proj2 (lookup_ge_None l (Z.to_nat i))); [done|lia].
Qed.

(** ** [strconv]: [Itoa] and [Atoi] *)

Lemma Atoi_empty : strconv.Atoi EmptyString = None.
Proof. done. Qed.

Lemma digit_char_spec d :
  0 ≤ d ≤ 9 →
  strconv.is_digit (strconv.digit_char d) = true
  ∧ strconv.digit_val (strconv.digit_char d) = d.
Proof.
  intros Hd.
  assert (d = 0 ∨ d = 1 ∨ d = 2 ∨ d = 3 ∨ d = 4 ∨ d = 5 ∨ d = 6 ∨ d = 7
          ∨ d = 8 ∨ d = 9) as Hcases by lia.
  repeat (destruct Hcases as [->|Hcases]; [by vm_compute|]).
  subst. by vm_compute.
Qed.

(** [utoa] writes a digit first, and reading its digits back continues the
    accumulation with the number appended. *)
Lemma utoa_digits fuel : ∀ n acc,
  0 ≤ n < 10 ^ Z.of_nat (S fuel) →
  ∃ c s, strconv.utoa (S fuel) n acc = String c s
         ∧ strconv.is_digit c = true
         ∧ ∃ k, 0 ≤ k ∧ ∀ a, strconv.digits (String c s) a
                             = strconv.digits acc (a * 10 ^ k + n).
Proof.
  assert (Hsmall : ∀ fuel n acc, 0 ≤ n < 10 →
            ∃ c s, strconv.utoa (S fuel) n acc = String c s
                   ∧ strconv.is_digit c = true
                   ∧ ∃ k, 0 ≤ k ∧ ∀ a, strconv.digits (String c s) a
                                       = strconv.digits acc (a * 10 ^ k + n)).
  { clear fuel. intros fuel n acc Hlt. simpl strconv.utoa.
    destruct (Z.ltb_spec n 10); [|lia].
    destruct (digit_char_spec (n mod 10)) as [Hd Hv];
      [rewrite Z.mod_small; lia|].
    exists (strconv.digit_char (n mod 10)), acc.
    split; [done|]. split; [done|]. exists 1. split; [lia|]. intros a.
    simpl. rewrite Hd, Hv, Z.mod_small by lia. done. }
  induction fuel as [|fuel IH]; intros n acc Hn.
  - apply Hsmall. simpl in Hn. lia.
  - destruct (Z.ltb_spec n 10) as [Hlt|Hge]; [apply Hsmall; lia|].
    change (strconv.utoa (S (S fuel)) n acc)
      with (let acc' := String (strconv.digit_char (n mod 10)) acc in
            if n <? 10 then acc' else strconv.utoa (S fuel) (n / 10) acc').
    cbv zeta. destruct (Z.ltb_spec n 10) as [|_]; [lia|].
    + destruct (digit_char_spec (n mod 10)) as [Hd Hv];
        [pose proof (Z.mod_pos_bound n 10); lia|].
      destruct (IH (n / 10) (String (strconv.digit_char (n mod 10)) acc))
        as (c & s & E & Hc & k & Hk0 & Hk).
      { split; [apply Z.div_pos; lia|].
        apply Z.div_lt_upper_bound; [lia|].
        rewrite (Nat2Z.inj_succ (S fuel)), Z.pow_succ_r in Hn; lia. }
      exists c, s. split; [done|]. split; [done|]. exists (k + 1).
      split; [lia|].
      intros a. rewrite Hk. simpl. rewrite Hd, Hv. f_equal.
      rewrite Z.pow_add_r, Z.pow_1_r by lia.
      pose proof (Z.div_mod n 10). lia.
Qed.

Lemma is_digit_not_sign c :
  strconv.is_digit c = true → c ≠ "-"%char ∧ c ≠ "+"%char.
Proof. intros H. split; intros ->; by vm_compute in H. Qed.

(** Every 64-bit integer printed by [Itoa] is read back by [Atoi]. *)
Lemma Atoi_Itoa i :
  int64_min ≤ i ≤ int64_max → strconv.Atoi (strconv.Itoa i) = Some i.
Proof.
  intros Hi.
  assert (Hin : in_int64 i = true).
  { unfold in_int64. apply andb_true_intro. split; apply Z.leb_le; lia. }
  unfold strconv.Itoa. destruct (Z.ltb_spec i 0) as [Hneg|Hpos].
  - destruct (utoa_digits 19 (- i) EmptyString) as (c & s & E & Hc & k & _ & Hk).
    { unfold int64_min in Hi. simpl. lia. }
    rewrite E. unfold strconv.Atoi.
    rewrite (bool_decide_eq_true_2 ("-"%char = "-"%char)) by done.
    cbv beta iota zeta. simpl orb. cbv beta iota zeta.
    rewrite Hk. simpl.
    replace (- (0 * 10 ^ k + - i)) with i by lia. by rewrite Hin.
  - destruct (utoa_digits 19 i EmptyString) as (c & s & E & Hc & k & _ & Hk).
    { unfold int64_max in Hi. simpl. lia. }
    rewrite E. destruct (is_digit_not_sign c Hc) as [Hm Hp].
    unfold strconv.Atoi.
    rewrite (bool_decide_eq_false_2 _ Hm), (bool_decide_eq_false_2 _ Hp).
    cbv beta iota zeta. simpl orb. cbv beta iota zeta.
    rewrite Hk. simpl.
    replace (0 * 10 ^ k + i) with i by lia. by rewrite Hin.
Qed.

(** A non-negative index is printed with decimal digits only. *)
Lemma Itoa_nonneg_digits i :
  0 ≤ i ≤ int64_max →
  ∃ c s, strconv.Itoa i = String c s ∧ strconv.is_digit c = true
         ∧ strconv.digits (String c s) 0 = Some i.
Proof.
  intros Hi. unfold strconv.Itoa. destruct (Z.ltb_spec i 0); [lia|].
  destruct (utoa_digits 19 i EmptyString) as (c & s & E & Hc & k & _ & Hk).
  { unfold int64_max in Hi. simpl. lia. }
  exists c, s. split; [done|]. split; [done|]. rewrite Hk. simpl. done.
Qed.

(** ** [resource] and [sort] *)

Lemma AsInt64_in_int64 q z : resource.AsInt64 q = Some z → int64_min ≤ z ≤ int64_max.
Proof.
  unfold resource.AsInt64. destruct (resource.scale q <? 0); [done|].
  simpl. destruct (in_int64 _) eqn:E; [|done]. intros [= <-].
  unfold in_int64 in E. apply andb_prop in E as [E1 E2].
  apply Z.leb_le in E1, E2. done.
Qed.

Lemma wrap64_small z : int64_min ≤ z ≤ int64_max → wrap64 z = z.
Proof.
  unfold int64_min, int64_max, wrap64. intros Hz.
  rewrite Z.mod_small; lia.
Qed.

Lemma quot_in_int64 a b :
  int64_min ≤ a ≤ int64_max → 0 < b → int64_min ≤ Z.quot a b ≤ int64_max.
Proof.
  intros Ha Hb. pose proof (Z.quot_rem' a b) as E.
  destruct (Z.le_gt_cases 0 a) as [Hpos|Hneg].
  - pose proof (Z.rem_bound_pos a b Hpos Hb).
    pose proof (Z.quot_pos a b Hpos Hb). unfold int64_min in *. nia.
  - pose proof (Z.rem_bound_pos_neg a b Hb ltac:(lia)).
    assert (Z.quot a b ≤ 0) by (apply Z.quot_le_upper_bound; lia).
    unfold int64_max in *. nia.
Qed.

Lemma Cmp_refl q : resource.Cmp q q = 0.
Proof. unfold resource.Cmp. by rewrite Z.compare_refl. Qed.

Lemma sort_insert_no_less {A} (less : A → A → bool) x l :
  (∀ y, y ∈ l → less x y = false) → sort.insert less x l = x :: l.
Proof.
  destruct l as [|y l]; [done|]. intros H. simpl.
  by rewrite (H y) by (by left).
Qed.

(** Insertion sort leaves a slice alone when no element is less than
    another. *)
Lemma sort_Slice_no_less {A} (less : A → A → bool) l :
  (∀ x y, x ∈ l → y ∈ l → less x y = false) → sort.Slice less l = l.
Proof.
  intros H. unfold sort.Slice.
  assert (G : ∀ l2 l1, (∀ x y, x ∈ l1 ++ l2 → y ∈ l1 ++ l2 → less x y = false) →
              foldl (λ rev_prefix x, sort.insert less x rev_prefix) (rev l1) l2
              = rev (l1 ++ l2)).
  { induction l2 as [|x l2 IH]; intros l1 Hl; simpl.
    - by rewrite app_nil_r.
    - rewrite sort_insert_no_less.
      + replace (x :: rev l1) with (rev (l1 ++ [x])) by (by rewrite rev_app_distr).
        rewrite IH; rewrite <- app_assoc; done.
      + intros y Hy. apply Hl.
        * apply elem_of_app. right. by left.
        * apply elem_of_app. left. by apply list_elem_of_In, in_rev, list_elem_of_In. }
  pose proof (G l [] H) as E. simpl in E. rewrite E. apply rev_involutive.
Qed.

(** ** Classification of the request *)

(** Case analysis on the two limits of a pod; the [exist] flags are replaced
    by what the hypotheses say about them. *)
Ltac split_limits p :=
  destruct (podResourceLimit GPUResourceName p) as [? ?],
           (podResourceLimit MemResourceName p) as [? ?];
  simpl in *; subst; simpl.

Lemma podResourceLimit_exist name pod :
  (podResourceLimit name pod).2 = true ↔ declared name pod.
Proof.
  unfold podResourceLimit, declared.
  assert (G : ∀ cs acc,
    (foldl (λ acc c, match Limits c !! name with
                     | Some q => (resource.Add acc.1 q, true)
                     | None => acc
                     end) acc cs).2 = true
    ↔ acc.2 = true ∨ ∃ c, c ∈ cs ∧ is_Some (Limits c !! name)).
  { induction cs as [|c cs IH]; intros acc; simpl.
    - split; [by left|]. intros [?|(c & Hc & _)]; [done|].
      by apply elem_of_nil in Hc.
    - rewrite IH. destruct (Limits c !! name) as [q|] eqn:E; simpl.
      + split; [|by left]. intros _. right. exists c. split; [by left|by eexists].
      + split.
        * intros [?|(c' & Hc' & Hs)]; [by left|].
          right. exists c'. split; [by right|done].
        * intros [?|(c' & Hc' & Hs)]; [by left|].
          apply elem_of_cons in Hc' as [->|Hc'].
          -- rewrite E in Hs. by destruct Hs.
          -- right. by exists c'. }
  rewrite G. simpl. split; [|by right]. by intros [?|?].
Qed.

Lemma podResourceLimit_not_exist name pod :
  (podResourceLimit name pod).2 = false ↔ ¬ declared name pod.
Proof.
  rewrite <- podResourceLimit_exist.
  destruct (podResourceLimit name pod).2; split; done.
Qed.

(** The target of a pod, in terms of what it declares and of its annotation. *)
Lemma target_Some pod i :
  target pod = Some i ↔
  (declared GPUResourceName pod ∨ declared MemResourceName pod)
  ∧ strconv.Atoi (lookupAnnotation pod GPUIndexAnnotationKey).1 = Some i.
Proof.
  unfold target. rewrite <- !podResourceLimit_exist.
  destruct (podResourceLimit GPUResourceName pod).2,
           (podResourceLimit MemResourceName pod).2; simpl;
    try (split; [|intros [[?|?] _]; done]; done).
  all: unfold lookupAnnotation;
    destruct (Annotations pod ≫= _) as [v|]; simpl;
    [destruct (strconv.Atoi v)|]; split; try done; try (intros [= ->]; split; auto);
    try (by intros [_ [= ->]]); try (by intros [_ ?]).
Qed.

Lemma target_unannotated pod :
  (lookupAnnotation pod GPUIndexAnnotationKey).2 = false → target pod = None.
Proof.
  intros Hno. unfold target. destruct (_ && _); [done|].
  destruct (strconv.Atoi _); [|done]. by rewrite Hno.
Qed.

(** C6. [Filter] passes a workload (a [nil] status) when no container
    declares either resource, and rejects it as
    [UnschedulableAndUnresolvable] when both resources are declared; in both
    cases whatever the node is, and without touching any quantity. *)
Theorem Filter_neither_or_both (pod : Pod) (nodeInfo : NodeInfo) (h : Heap) :
  (¬ declared GPUResourceName pod → ¬ declared MemResourceName pod →
   Filter pod nodeInfo h = Ok (None, h))
  ∧ (declared GPUResourceName pod → declared MemResourceName pod →
     Filter pod nodeInfo h
     = Ok (Some (NewStatus UnschedulableAndUnresolvable "pod conflict resources"), h)).
Proof.
  split.
  - intros Hg Hm. apply podResourceLimit_not_exist in Hg, Hm.
    unfold Filter.
    by split_limits pod.
  - intros Hg Hm. apply podResourceLimit_exist in Hg, Hm.
    unfold Filter.
    by split_limits pod.
Qed.

Lemma Filter_neither_or_both_witness :
  Filter plainPod scenarioMachine [] = Ok (None, [])
  ∧ Filter conflictPod scenarioMachine []
    = Ok (Some (NewStatus UnschedulableAndUnresolvable "pod conflict resources"), []).
Proof.
  split.
  - apply (proj1 (Filter_neither_or_both plainPod scenarioMachine [])).
    + intros (c & Hc & Hs). apply list_elem_of_singleton in Hc as ->.
      simpl in Hs. rewrite lookup_empty in Hs. by destruct Hs.
    + intros (c & Hc & Hs). apply list_elem_of_singleton in Hc as ->.
      simpl in Hs. rewrite lookup_empty in Hs. by destruct Hs.
  - apply (proj2 (Filter_neither_or_both conflictPod scenarioMachine [])).
    + eexists. split; [by left|]. vm_compute. by eexists.
    + eexists. split; [right; by left|]. vm_compute. by eexists.
Defined.

(** The same classification opens [Reserve], once the node is found. *)
Lemma Reserve_neither_or_both lister p nodeName nodeInfo (h : Heap) :
  lister nodeName = inl nodeInfo →
  (¬ declared GPUResourceName p → ¬ declared MemResourceName p →
   Reserve lister p nodeName h = Ok ((None, p), h))
  ∧ (declared GPUResourceName p → declared MemResourceName p →
     Reserve lister p nodeName h
     = Ok ((Some (NewStatus UnschedulableAndUnresolvable "pod conflict resources"), p), h)).
Proof.
  intros Hn. split.
  - intros Hg Hm. apply podResourceLimit_not_exist in Hg, Hm.
    unfold Reserve. rewrite Hn.
    by split_limits p.
  - intros Hg Hm. apply podResourceLimit_exist in Hg, Hm.
    unfold Reserve. rewrite Hn.
    by split_limits p.
Qed.

(** ** Building the model *)

Lemma placePod_skip gpus pod : target pod = None → placePod gpus pod = mret gpus.
Proof.
  unfold target, placePod.
  destruct (podResourceLimit GPUResourceName pod) as [gl ge].
  destruct (podResourceLimit MemResourceName pod) as [ml me].
  destruct (lookupAnnotation pod GPUIndexAnnotationKey) as [val has]. simpl.
  destruct (negb ge && negb me); [done|].
  destruct (strconv.Atoi val); [|done].
  by destruct (negb has).
Qed.

(** A pod with a target inside the slice: the slot is marked when the pod
    declares the exclusive resource, and its [usedMemory] cell grows by the
    pod's memory limit when it declares the shared one. *)
Lemma placePod_in_range gpus pod i u q (h : Heap) :
  target pod = Some i → 0 ≤ i →
  gpus !! Z.to_nat i = Some u → h !! usedMemory u = Some q →
  placePod gpus pod h
  = Ok (if (podResourceLimit GPUResourceName pod).2
        then <[Z.to_nat i := setMonopoly u]> gpus else gpus,
        if (podResourceLimit MemResourceName pod).2
        then <[usedMemory u := resource.Add q (podResourceLimit MemResourceName pod).1]> h
        else h).
Proof.
  unfold target, placePod.
  destruct (podResourceLimit GPUResourceName pod) as [gl ge].
  destruct (podResourceLimit MemResourceName pod) as [ml me].
  destruct (lookupAnnotation pod GPUIndexAnnotationKey) as [val has]. simpl.
  destruct (negb ge && negb me); [done|].
  destruct (strconv.Atoi val) as [j|]; [|done].
  destruct (negb has); [done|]. intros [= ->] Hi Hu Hq.
  assert (Hlt : (Z.to_nat i < length gpus)%nat) by (by eapply lookup_lt_Some).
  destruct ge, me; unfold mbind, M_bind; simpl.
  - rewrite (at_index_Some _ _ _ _ Hi Hu). simpl.
    rewrite (at_index_Some _ _ (setMonopoly u) _ Hi)
      by (by apply list_lookup_insert_eq).
    unfold Quantity_Add, mbind, M_bind, load, store. simpl. by rewrite Hq, Hq.
  - rewrite (at_index_Some _ _ _ _ Hi Hu). done.
  - rewrite (at_index_Some _ _ _ _ Hi Hu).
    unfold Quantity_Add, mbind, M_bind, load, store. simpl. by rewrite Hq, Hq.
  - done.
Qed.

Lemma placePod_out_of_range gpus pod i (h : Heap) :
  target pod = Some i → ¬ (0 ≤ i < Z.of_nat (length gpus)) →
  placePod gpus pod h = Panic "index out of range".
Proof.
  unfold target, placePod.
  destruct (podResourceLimit GPUResourceName pod) as [gl ge].
  destruct (podResourceLimit MemResourceName pod) as [ml me].
  destruct (lookupAnnotation pod GPUIndexAnnotationKey) as [val has]. simpl.
  destruct (negb ge && negb me) eqn:Hd; [done|].
  destruct (strconv.Atoi val) as [j|]; [|done].
  destruct (negb has); [done|]. intros [= ->] Hi.
  destruct ge, me; try done; unfold mbind, M_bind; simpl;
    by rewrite (at_index_None _ _ _ Hi).
Qed.

Lemma newGPUs_spec n i mem (h : Heap) :
  ∃ gpus, newGPUs n i mem h
          = Ok (gpus, h ++ replicate n (resource.NewQuantity 0))
    ∧ length gpus = n
    ∧ ∀ k u, gpus !! k = Some u →
             index u = i + Z.of_nat k ∧ monopoly u = false
             ∧ memory u = mem ∧ usedMemory u = (length h + k)%nat.
Proof.
  revert i h. induction n as [|n IH]; intros i h.
  - exists []. simpl. rewrite app_nil_r. repeat split; done.
  - destruct (IH (i + 1) (h ++ [resource.NewQuantity 0])) as (gpus & E & Hlen & Hk).
    exists (mkGpu i false mem (length h) :: gpus).
    simpl. unfold mbind, M_bind, new. simpl. rewrite E.
    rewrite <- app_assoc. simpl. split; [done|]. split; [by rewrite Hlen|].
    intros [|k] u Hu; simpl in Hu.
    + injection Hu as <-. simpl. repeat split; lia.
    + destruct (Hk k u Hu) as (?&?&?&Hused). rewrite length_app in Hused.
      simpl in Hused. repeat split; try done; lia.
Qed.

Lemma built_lookup mem base (h : Heap) gpus i :
  built mem base h gpus → 0 ≤ i < Z.of_nat (length gpus) →
  ∃ u q, gpus !! Z.to_nat i = Some u ∧ h !! usedMemory u = Some q
         ∧ usedMemory u = (base + Z.to_nat i)%nat.
Proof.
  intros (Hm & Hlen & Hk) Hi.
  destruct (lookup_lt_is_Some_2 gpus (Z.to_nat i)) as [u Hu]; [lia|].
  destruct (Hk _ _ Hu) as (_ & _ & Hused).
  destruct (lookup_lt_is_Some_2 h (usedMemory u)) as [q Hq]; [lia|].
  by exists u, q.
Qed.

Lemma placePod_built mem base (h h' : Heap) gpus gpus' pod :
  built mem base h gpus → placePod gpus pod h = Ok (gpus', h') →
  built mem base h' gpus' ∧ length gpus' = length gpus
  ∧ ∀ l, (l < base)%nat → h' !! l = h !! l.
Proof.
  intros Hb E. destruct (target pod) as [i|] eqn:Ht.
  2:{ rewrite (placePod_skip _ _ Ht) in E. by injection E as <- <-. }
  destruct (decide (0 ≤ i < Z.of_nat (length gpus))) as [Hi|Hi].
  2:{ by rewrite (placePod_out_of_range _ _ _ _ Ht Hi) in E. }
  destruct (built_lookup _ _ _ _ _ Hb Hi) as (u & q & Hu & Hq & Hused).
  rewrite (placePod_in_range _ _ _ _ _ _ Ht (proj1 Hi) Hu Hq) in E.
  injection E as <- <-. destruct Hb as (Hm & Hlen & Hk).
  assert (Hlen' : length (if (podResourceLimit GPUResourceName pod).2
                          then <[Z.to_nat i:=setMonopoly u]> gpus else gpus)
                  = length gpus).
  { destruct (podResourceLimit GPUResourceName pod).2; [apply length_insert|done]. }
  split; [|split; [done|]].
  - split; [done|]. split.
    + rewrite Hlen'. destruct (podResourceLimit MemResourceName pod).2;
        [by rewrite length_insert|done].
    + intros k v Hv. destruct (podResourceLimit GPUResourceName pod).2; [|by apply Hk].
      destruct (decide (k = Z.to_nat i)) as [->|Hne].
      * rewrite list_lookup_insert_eq in Hv by (by eapply lookup_lt_Some).
        injection Hv as <-. simpl. by apply Hk.
      * rewrite list_lookup_insert_ne in Hv by done. by apply Hk.
  - intros l Hl. destruct (podResourceLimit MemResourceName pod).2; [|done].
    apply list_lookup_insert_ne. lia.
Qed.

Lemma foldM_placePod_built mem base pods : ∀ (h h' : Heap) gpus gpus',
  built mem base h gpus → foldM placePod gpus pods h = Ok (gpus', h') →
  built mem base h' gpus' ∧ length gpus' = length gpus
  ∧ ∀ l, (l < base)%nat → h' !! l = h !! l.
Proof.
  induction pods as [|pod pods IH]; intros h h' gpus gpus' Hb E.
  - injection E as <- <-. done.
  - simpl in E. apply bind_inv_Ok in E as (g1 & h1 & E1 & E2).
    destruct (placePod_built _ _ _ _ _ _ _ Hb E1) as (Hb1 & Hl1 & Hf1).
    destruct (IH _ _ _ _ Hb1 E2) as (Hb2 & Hl2 & Hf2).
    split; [done|]. split; [congruence|].
    intros l Hl. by rewrite Hf2, Hf1.
Qed.

(** What a successful [NewGPUNode] has done. *)
Lemma NewGPUNode_Ok nodeInfo (h0 h : Heap) n :
  NewGPUNode nodeInfo h0 = Ok (n, h) →
  ∃ gpuCnt memCnt,
    resource.AsInt64 (default resource.zero (Allocatable nodeInfo !! GPUResourceName))
    = Some gpuCnt
    ∧ resource.AsInt64 (default resource.zero (Allocatable nodeInfo !! MemResourceName))
      = Some memCnt
    ∧ 0 < gpuCnt ≤ maxSliceLen
    ∧ Z.of_nat (length (gpus n)) = gpuCnt
    ∧ built (length h0) (S (length h0)) h (gpus n)
    ∧ h !! length h0 = Some (resource.NewQuantity (wrap64 (Z.quot memCnt gpuCnt))).
Proof.
  unfold NewGPUNode.
  destruct (resource.AsInt64 (default _ (_ !! GPUResourceName))) as [gpuCnt|]; [|done].
  destruct (resource.AsInt64 (default _ (_ !! MemResourceName))) as [memCnt|]; [|done].
  destruct (Z.eqb_spec gpuCnt 0) as [|Hnz]; [done|].
  intros E. apply bind_inv_Ok in E as (mem & h1 & E1 & E).
  injection E1 as <- <-.
  apply bind_inv_Ok in E as (g & h2 & E2 & E). injection E as <- <-. simpl.
  unfold constructGPUs in E2. destruct (Z.ltb_spec gpuCnt 0) as [|Hpos]; [done|].
  destruct (Z.ltb_spec maxSliceLen gpuCnt) as [|Hmax]; [done|]. cbn [orb] in E2.
  apply bind_inv_Ok in E2 as (g0 & h3 & E3 & E4).
  destruct (newGPUs_spec (Z.to_nat gpuCnt) 0 (length h0)
              (h0 ++ [resource.NewQuantity (wrap64 (Z.quot memCnt gpuCnt))]))
    as (g0' & E3' & Hlen & Hk).
  rewrite E3' in E3. injection E3 as <- <-.
  assert (Hb : built (length h0) (S (length h0))
                 ((h0 ++ [resource.NewQuantity (wrap64 (Z.quot memCnt gpuCnt))])
                    ++ replicate (Z.to_nat gpuCnt) (resource.NewQuantity 0)) g0').
  { split; [lia|]. split.
    - rewrite !length_app, length_replicate, Hlen. simpl. lia.
    - intros k u Hu. destruct (Hk k u Hu) as (?&?&?&Hused).
      rewrite length_app in Hused. simpl in Hused. repeat split; try done; lia. }
  destruct (foldM_placePod_built _ _ _ _ _ _ _ Hb E4) as (Hb' & Hl' & Hf').
  exists gpuCnt, memCnt.
  split; [done|]. split; [done|]. split; [lia|]. split; [lia|]. split; [done|].
  rewrite Hf' by lia. rewrite <- app_assoc.
  rewrite lookup_app_r by lia. by rewrite Nat.sub_diag.
Qed.

Lemma NewGPUNode_unfold nodeInfo gpuCnt memCnt (h : Heap) :
  resource.AsInt64 (default resource.zero (Allocatable nodeInfo !! GPUResourceName))
  = Some gpuCnt →
  resource.AsInt64 (default resource.zero (Allocatable nodeInfo !! MemResourceName))
  = Some memCnt →
  0 < gpuCnt ≤ maxSliceLen →
  NewGPUNode nodeInfo h
  = match newGPUs (Z.to_nat gpuCnt) 0 (length h)
            (h ++ [resource.NewQuantity (wrap64 (Z.quot memCnt gpuCnt))]) with
    | Ok (g0, h1) =>
        match foldM placePod g0 (Pods nodeInfo) h1 with
        | Ok (g, h2) =>
            Ok (mkGpuNode
                  (default resource.zero (Allocatable nodeInfo !! GPUResourceName))
                  (default resource.zero (Allocatable nodeInfo !! MemResourceName))
                  g, h2)
        | Panic msg => Panic msg
        end
    | Panic msg => Panic msg
    end.
Proof.
  intros Hg Hm Hpos. unfold NewGPUNode. rewrite Hg, Hm.
  destruct (Z.eqb_spec gpuCnt 0); [lia|].
  unfold mbind, M_bind, new, constructGPUs. simpl.
  destruct (Z.ltb_spec gpuCnt 0); [lia|].
  destruct (Z.ltb_spec maxSliceLen gpuCnt); [lia|]. cbn [orb].
  unfold mbind, M_bind.
  destruct (newGPUs _ _ _ _) as [[g0 h1]|]; [|done].
  by destruct (foldM placePod g0 (Pods nodeInfo) h1) as [[g h2]|].
Qed.

Lemma newGPUs_built n mem (h : Heap) :
  (mem < length h)%nat →
  ∃ g0, newGPUs n 0 mem h = Ok (g0, h ++ replicate n (resource.NewQuantity 0))
        ∧ length g0 = n
        ∧ built mem (length h) (h ++ replicate n (resource.NewQuantity 0)) g0.
Proof.
  intros Hmem. destruct (newGPUs_spec n 0 mem h) as (g0 & E & Hlen & Hk).
  exists g0. split; [done|]. split; [done|]. split; [done|]. split.
  - by rewrite length_app, length_replicate, Hlen.
  - intros k u Hu. destruct (Hk k u Hu) as (?&?&?&?). repeat split; try done; lia.
Qed.

Lemma placePod_total mem base (h : Heap) gpus pod :
  built mem base h gpus →
  (∀ i, target pod = Some i → 0 ≤ i < Z.of_nat (length gpus)) →
  ∃ gpus' h', placePod gpus pod h = Ok (gpus', h').
Proof.
  intros Hb Hr. destruct (target pod) as [i|] eqn:Ht.
  - destruct (built_lookup _ _ _ _ _ Hb (Hr i eq_refl)) as (u & q & Hu & Hq & _).
    rewrite (placePod_in_range _ _ _ _ _ _ Ht (proj1 (Hr i eq_refl)) Hu Hq). eauto.
  - rewrite (placePod_skip _ _ Ht). by exists gpus, h.
Qed.

Lemma foldM_placePod_total mem base pods : ∀ (h : Heap) gpus,
  built mem base h gpus →
  Forall (λ pod, ∀ i, target pod = Some i → 0 ≤ i < Z.of_nat (length gpus)) pods →
  ∃ gpus' h', foldM placePod gpus pods h = Ok (gpus', h').
Proof.
  induction pods as [|pod pods IH]; intros h gpus Hb Hall.
  - by exists gpus, h.
  - apply Forall_cons in Hall as [Hpod Hall].
    destruct (placePod_total _ _ _ _ _ Hb Hpod) as (g1 & h1 & E1).
    destruct (placePod_built _ _ _ _ _ _ _ Hb E1) as (Hb1 & Hl1 & _).
    simpl. rewrite (bind_Ok _ _ _ _ _ E1). apply IH; [done|].
    by rewrite Hl1.
Qed.

Lemma foldM_placePod_panics mem base pods : ∀ (h : Heap) gpus pod i,
  built mem base h gpus → pod ∈ pods →
  target pod = Some i → ¬ (0 ≤ i < Z.of_nat (length gpus)) →
  ∃ msg, foldM placePod gpus pods h = Panic msg.
Proof.
  induction pods as [|p pods IH]; intros h gpus pod i Hb Hin Ht Hi.
  - by apply elem_of_nil in Hin.
  - simpl. apply elem_of_cons in Hin as [->|Hin].
    + exists "index out of range".
      apply bind_Panic. by eapply placePod_out_of_range.
    + destruct (placePod gpus p h) as [[g1 h1]|msg] eqn:E1.
      * rewrite (bind_Ok _ _ _ _ _ E1).
        destruct (placePod_built _ _ _ _ _ _ _ Hb E1) as (Hb1 & Hl1 & _).
        eapply IH; [done..|]. by rewrite Hl1.
      * exists msg. by apply bind_Panic.
Qed.

Lemma built_indexed mem base (h : Heap) gpus :
  built mem base h gpus → indexed h gpus.
Proof.
  intros (Hm & Hlen & Hk) k u Hu. destruct (Hk k u Hu) as (Hi & _ & Hused).
  split; [done|]. apply lookup_lt_is_Some_2.
  apply lookup_lt_Some in Hu. lia.
Qed.

(** Every model that [NewGPUNode] returns is indexed. *)
Lemma NewGPUNode_indexed nodeInfo (h0 h : Heap) n :
  NewGPUNode nodeInfo h0 = Ok (n, h) → indexed h (gpus n).
Proof.
  intros E. apply NewGPUNode_Ok in E as (?&?&_&_&_&_&Hb&_).
  by eapply built_indexed.
Qed.

Lemma built_NoDup mem base (h : Heap) gpus :
  built mem base h gpus →
  NoDup (usedMemory <$> gpus) ∧ (mem ∉ (usedMemory <$> gpus))
  ∧ ∀ u, u ∈ gpus → memory u = mem ∧ is_Some (h !! usedMemory u).
Proof.
  intros (Hm & Hlen & Hk). split; [|split].
  - apply NoDup_alt. intros i j l Hi Hj.
    rewrite list_lookup_fmap in Hi, Hj.
    destruct (gpus !! i) as [u|] eqn:Eu; [|done].
    destruct (gpus !! j) as [w|] eqn:Ew; [|done].
    simpl in *. injection Hi as Hi. injection Hj as Hj.
    destruct (Hk _ _ Eu) as (_ & _ & Hu). destruct (Hk _ _ Ew) as (_ & _ & Hw). lia.
  - intros Hin. apply list_elem_of_fmap in Hin as (u & E & Hu).
    apply list_elem_of_lookup in Hu as [k Hk'].
    destruct (Hk _ _ Hk') as (_ & _ & Hu). lia.
  - intros u Hu. apply list_elem_of_lookup in Hu as [k Hk'].
    destruct (Hk _ _ Hk') as (_ & ? & Hu). split; [done|].
    apply lookup_lt_is_Some_2. apply lookup_lt_Some in Hk'. lia.
Qed.

Lemma rebuild_Ok nodeInfo units :
  rebuild nodeInfo = Ok units →
  ∃ n h, NewGPUNode nodeInfo [] = Ok (n, h) ∧ units = view h n.
Proof.
  unfold rebuild. destruct (NewGPUNode nodeInfo []) as [[n h]|]; [|done].
  intros [= <-]. by exists n, h.
Qed.

(** A pod without a usable index annotation, wherever it stands among the
    placed pods, leaves no trace in the model. *)
Lemma rebuild_skip alloc l1 pod l2 :
  target pod = None →
  rebuild (mkNodeInfo alloc (l1 ++ pod :: l2)) = rebuild (mkNodeInfo alloc (l1 ++ l2)).
Proof.
  intros Ht. unfold rebuild, NewGPUNode. simpl.
  destruct (resource.AsInt64 (default _ (alloc !! GPUResourceName))) as [g|]; [|done].
  destruct (resource.AsInt64 (default _ (alloc !! MemResourceName))) as [m|]; [|done].
  destruct (g =? 0); [done|].
  unfold mbind, M_bind, new, constructGPUs. simpl.
  destruct ((g <? 0) || (maxSliceLen <? g)); [done|]. unfold mbind, M_bind.
  destruct (newGPUs _ _ _ _) as [[g0 h1]|]; [|done].
  rewrite foldM_skip; [done|]. intros a. by apply placePod_skip.
Qed.

(** ** Totality of model construction *)

(** C9, as stated, fails in both directions.  The two conditions do not
    make [NewGPUNode] return: with a unit count of 2 and no placed pod, a
    memory total of 2^63 is not an int64 count and the construction panics;
    with a unit count of 2^50 and no placed pod, [make] panics.  Nor is the
    second condition needed: a placed pod that declares neither resource is
    skipped before its annotation is read, so its index 7 on a node of two
    units does no harm. *)
Lemma NewGPUNode_total_fails :
  (resource.AsInt64 (default resource.zero
                       (Allocatable (machine 2 (2 ^ 63) []) !! GPUResourceName))
   = Some 2
   ∧ Forall (annotationInRange 2) (Pods (machine 2 (2 ^ 63) []))
   ∧ rebuild (machine 2 (2 ^ 63) []) = Panic "invalid memory resource format")
  ∧ (resource.AsInt64 (default resource.zero
                         (Allocatable (machine (2 ^ 50) 16 []) !! GPUResourceName))
     = Some (2 ^ 50)
     ∧ Forall (annotationInRange (2 ^ 50)) (Pods (machine (2 ^ 50) 16 []))
     ∧ rebuild (machine (2 ^ 50) 16 []) = Panic "makeslice: len out of range")
  ∧ (resource.AsInt64 (default resource.zero
                         (Allocatable (machine 2 16 [strayPod]) !! GPUResourceName))
     = Some 2
     ∧ ¬ Forall (annotationInRange 2) (Pods (machine 2 16 [strayPod]))
     ∧ ∃ units, rebuild (machine 2 16 [strayPod]) = Ok units).
Proof.
  split; [|split].
  - split; [vm_compute; reflexivity|]. split; [apply Forall_nil_2|].
    vm_compute. reflexivity.
  - split; [vm_compute; reflexivity|]. split; [apply Forall_nil_2|].
    vm_compute. reflexivity.
  - split; [vm_compute; reflexivity|]. split.
    + intros H. apply Forall_cons in H as [H _].
      specialize (H 7 ltac:(vm_compute; reflexivity)). lia.
    + eexists. vm_compute. reflexivity.
Qed.

(** C9, amended.  [NewGPUNode] returns a model exactly when both allocatable
    quantities are int64 counts, the unit count is at least 1 and at most the
    longest slice of pointers [make] creates, and every placed pod that
    declares one of the two resources has an index annotation that, when it
    parses, lies in [0, gpuCnt).  In every other case the call panics. *)
Theorem NewGPUNode_total (nodeInfo : NodeInfo) (h : Heap) :
  (∃ n h', NewGPUNode nodeInfo h = Ok (n, h'))
  ↔ ∃ gpuCnt memCnt,
      resource.AsInt64 (default resource.zero (Allocatable nodeInfo !! GPUResourceName))
      = Some gpuCnt
      ∧ resource.AsInt64 (default resource.zero (Allocatable nodeInfo !! MemResourceName))
        = Some memCnt
      ∧ 0 < gpuCnt ≤ maxSliceLen
      ∧ Forall (λ pod, declared GPUResourceName pod ∨ declared MemResourceName pod →
                       annotationInRange gpuCnt pod) (Pods nodeInfo).
Proof.
  split.
  - intros (n & h' & E).
    destruct (NewGPUNode_Ok _ _ _ _ E) as (g & m & Hg & Hm & Hpos & _).
    exists g, m. split; [done|]. split; [done|]. split; [done|].
    apply Forall_forall. intros pod Hin Hdecl i Hatoi.
    destruct (decide (0 ≤ i < g)) as [|Hout]; [done|]. exfalso.
    rewrite (NewGPUNode_unfold _ _ _ _ Hg Hm Hpos) in E.
    destruct (newGPUs_built (Z.to_nat g) (length h)
                (h ++ [resource.NewQuantity (wrap64 (Z.quot m g))]))
      as (g0 & E0 & Hlen & Hb); [rewrite length_app; simpl; lia|].
    rewrite E0 in E.
    destruct (foldM_placePod_panics _ _ (Pods nodeInfo) _ _ pod i Hb Hin) as [msg Ep].
    { apply target_Some. by split. }
    { rewrite Hlen. lia. }
    by rewrite Ep in E.
  - intros (g & m & Hg & Hm & Hpos & Hall).
    rewrite (NewGPUNode_unfold _ _ _ _ Hg Hm Hpos).
    destruct (newGPUs_built (Z.to_nat g) (length h)
                (h ++ [resource.NewQuantity (wrap64 (Z.quot m g))]))
      as (g0 & E0 & Hlen & Hb); [rewrite length_app; simpl; lia|].
    rewrite E0.
    destruct (foldM_placePod_total _ _ (Pods nodeInfo) _ _ Hb) as (gs & h2 & E).
    { eapply Forall_impl; [exact Hall|]. intros pod Hpod i Ht.
      apply target_Some in Ht as [Hdecl Ht]. rewrite Hlen.
      specialize (Hpod Hdecl i Ht). lia. }
    rewrite E. eauto.
Qed.

Lemma NewGPUNode_total_witness :
  ∃ n h', NewGPUNode (machine 2 16 [limitPod MemResourceName 5 (Some "1"); strayPod]) []
          = Ok (n, h').
Proof.
  apply (proj2 (NewGPUNode_total
                  (machine 2 16 [limitPod MemResourceName 5 (Some "1"); strayPod]) [])).
  exists 2, 16. split; [vm_compute; reflexivity|]. split; [vm_compute; reflexivity|].
  split; [by vm_compute|].
  apply Forall_cons_2; [|apply Forall_cons_2; [|apply Forall_nil_2]].
  - intros _ j Hj. vm_compute in Hj. injection Hj as <-. lia.
  - intros [(c & Hc & Hs)|(c & Hc & Hs)];
      apply list_elem_of_singleton in Hc as ->; vm_compute in Hs; by destruct Hs.
Defined.

(** ** Malformed capacity *)

(** C7, as stated, fails: on a node whose unit count is not an int64 count
    the model construction panics, and [Filter] and [Reserve], which call it,
    panic with it instead of returning a status with code [Error]. *)
Lemma malformed_capacity_panics :
  resource.AsInt64 (default resource.zero
                      (Allocatable malformedMachine !! GPUResourceName)) = None
  ∧ rebuild malformedMachine = Panic "invalid gpu resource format"
  ∧ run (Filter (limitPod MemResourceName 1 None) malformedMachine)
    = Panic "invalid gpu resource format"
  ∧ run (Reserve (λ _, inl malformedMachine) (limitPod MemResourceName 1 None) "node")
    = Panic "invalid gpu resource format"
  ∧ ¬ ∃ st, run (Filter (limitPod MemResourceName 1 None) malformedMachine)
            = Ok (Some st) ∧ code st = Error.
Proof.
  assert (E : run (Filter (limitPod MemResourceName 1 None) malformedMachine)
              = Panic "invalid gpu resource format") by (vm_compute; reflexivity).
  repeat split; try (vm_compute; reflexivity).
  intros (st & Hst & _). by rewrite E in Hst.
Qed.

(** C7, amended.  When the allocatable unit count is not an int64 count,
    [NewGPUNode] panics with "invalid gpu resource format"; when the unit
    count is one but the allocatable memory is not, it panics with "invalid
    memory resource format".  [Reserve] for a workload that declares exactly
    one resource does not return a status then: the panic goes through. *)
Theorem NewGPUNode_malformed_capacity (nodeInfo : NodeInfo) (h : Heap) :
  let gpuAllocatable :=
    default resource.zero (Allocatable nodeInfo !! GPUResourceName) in
  let memAllocatable :=
    default resource.zero (Allocatable nodeInfo !! MemResourceName) in
  (resource.AsInt64 gpuAllocatable = None →
   NewGPUNode nodeInfo h = Panic "invalid gpu resource format"
   ∧ ∀ lister p nodeName,
       lister nodeName = inl nodeInfo → declaresOne p →
       Reserve lister p nodeName h = Panic "invalid gpu resource format")
  ∧ (is_Some (resource.AsInt64 gpuAllocatable) →
     resource.AsInt64 memAllocatable = None →
     NewGPUNode nodeInfo h = Panic "invalid memory resource format"
     ∧ ∀ lister p nodeName,
         lister nodeName = inl nodeInfo → declaresOne p →
         Reserve lister p nodeName h = Panic "invalid memory resource format").
Proof.
  intros gpuAllocatable memAllocatable.
  assert (Hres : ∀ msg lister p nodeName,
             NewGPUNode nodeInfo h = Panic msg →
             lister nodeName = inl nodeInfo → declaresOne p →
             Reserve lister p nodeName h = Panic msg).
  { intros msg lister p nodeName Hn Hl Hone. unfold Reserve. rewrite Hl.
    destruct Hone as [[Hg Hm]|[Hg Hm]].
    - apply podResourceLimit_exist in Hg. apply podResourceLimit_not_exist in Hm.
      split_limits p. by apply bind_Panic.
    - apply podResourceLimit_not_exist in Hg. apply podResourceLimit_exist in Hm.
      split_limits p. by apply bind_Panic. }
  split.
  - intros Hg.
    assert (Hn : NewGPUNode nodeInfo h = Panic "invalid gpu resource format").
    { unfold NewGPUNode. fold gpuAllocatable. by rewrite Hg. }
    split; [done|]. intros. by apply Hres.
  - intros [g Hg] Hm.
    assert (Hn : NewGPUNode nodeInfo h = Panic "invalid memory resource format").
    { unfold NewGPUNode. fold gpuAllocatable memAllocatable. by rewrite Hg, Hm. }
    split; [done|]. intros. by apply Hres.
Qed.

Lemma NewGPUNode_malformed_capacity_witness :
  NewGPUNode malformedMachine [] = Panic "invalid gpu resource format"
  ∧ NewGPUNode (machine 2 (2 ^ 63) []) [] = Panic "invalid memory resource format".
Proof.
  split.
  - apply (proj1 (NewGPUNode_malformed_capacity malformedMachine [])).
    vm_compute. reflexivity.
  - apply (proj2 (NewGPUNode_malformed_capacity (machine 2 (2 ^ 63) []) [])).
    + vm_compute. by eexists.
    + vm_compute. reflexivity.
Defined.

(** ** Capacity of the units *)

Lemma sumCapacity_uniform units c :
  Forall (λ u, capacityBytes u = resource.NewQuantity c) units →
  sumCapacity units = Z.of_nat (length units) * c.
Proof.
  induction 1 as [|u us Hu _ IH]; [done|].
  simpl. rewrite Hu. fold (sumCapacity us). rewrite IH. simpl. lia.
Qed.

(** C8. On a machine whose two allocatable quantities are int64 counts with
    a positive unit count, every unit of the model just built has capacity
    [memCnt / gpuCnt] by truncating division; the units' capacities fall
    short of the total by exactly the remainder of that division, and their
    sum is at most the total for a (non-negative) byte count. *)
Theorem NewGPUNode_capacity (nodeInfo : NodeInfo) (gpuCnt memCnt : Z)
  (units : list Unit) :
  resource.AsInt64 (default resource.zero (Allocatable nodeInfo !! GPUResourceName))
  = Some gpuCnt →
  resource.AsInt64 (default resource.zero (Allocatable nodeInfo !! MemResourceName))
  = Some memCnt →
  0 < gpuCnt →
  rebuild nodeInfo = Ok units →
  Z.of_nat (length units) = gpuCnt
  ∧ Forall (λ u, capacityBytes u = resource.NewQuantity (Z.quot memCnt gpuCnt)) units
  ∧ memCnt - sumCapacity units = Z.rem memCnt gpuCnt
  ∧ (0 ≤ memCnt → sumCapacity units ≤ memCnt).
Proof.
  intros Hg Hm Hpos E. unfold rebuild in E.
  destruct (NewGPUNode nodeInfo []) as [[n h]|msg] eqn:En; [|done].
  injection E as <-.
  apply NewGPUNode_Ok in En as (g & m & Hg' & Hm' & _ & Hlen & Hb & Hcap).
  rewrite Hg in Hg'. rewrite Hm in Hm'. injection Hg' as <-. injection Hm' as <-.
  rewrite wrap64_small in Hcap
    by (apply quot_in_int64; [by eapply AsInt64_in_int64|done]).
  assert (Hall : Forall (λ u, capacityBytes u
                              = resource.NewQuantity (Z.quot memCnt gpuCnt))
                   (view h n)).
  { unfold view. apply Forall_fmap, Forall_lookup. intros k u Hu. simpl.
    destruct Hb as (_ & _ & Hk). destruct (Hk k u Hu) as (_ & -> & _).
    by apply lookup_total_Some. }
  assert (Hsum : sumCapacity (view h n) = gpuCnt * Z.quot memCnt gpuCnt).
  { rewrite (sumCapacity_uniform _ _ Hall). unfold view.
    by rewrite length_fmap, Hlen. }
  split; [by unfold view; rewrite length_fmap|]. split; [done|].
  rewrite Hsum. pose proof (Z.quot_rem' memCnt gpuCnt) as Hqr.
  split; [lia|]. intros Hnn.
  pose proof (Z.rem_bound_pos memCnt gpuCnt Hnn Hpos). lia.
Qed.

Lemma NewGPUNode_capacity_witness :
  ∃ units, rebuild (machine 3 16 []) = Ok units
           ∧ Forall (λ u, capacityBytes u = resource.NewQuantity 5) units
           ∧ 16 - sumCapacity units = 1.
Proof.
  eexists. split; [vm_compute; reflexivity|].
  pose proof (NewGPUNode_capacity (machine 3 16 []) 3 16 _
                ltac:(vm_compute; reflexivity) ltac:(vm_compute; reflexivity)
                ltac:(lia) ltac:(vm_compute; reflexivity)) as (_ & Hcap & Hrem & _).
  split; [exact Hcap|exact Hrem].
Defined.

(** ** The exclusive fit finder *)

Lemma gpuFit_loop h gpus fits :
  (∀ u, u ∈ gpus → is_Some (h !! usedMemory u)) →
  foldM gpuFitStep fits gpus h
  = Ok (fits ++ (unitIndex <$> List.filter idle (viewGPU h <$> gpus)), h).
Proof.
  revert fits. induction gpus as [|u gpus IH]; intros fits Hall.
  - simpl. by rewrite app_nil_r.
  - destruct (Hall u) as [q Hq]; [by left|].
    simpl. unfold gpuFitStep, mbind, M_bind, load. rewrite Hq.
    unfold idle at 1. simpl. rewrite (lookup_total_Some _ _ _ Hq).
    destruct (negb (monopoly u) && resource.IsZero q); simpl;
      rewrite IH by (intros; apply Hall; by right); [|done].
    by rewrite <- app_assoc.
Qed.

Lemma filter_indexes_sorted h gpus off :
  (∀ k u, gpus !! k = Some u → index u = off + Z.of_nat k) →
  StronglySorted Z.lt (unitIndex <$> List.filter idle (viewGPU h <$> gpus))
  ∧ Forall (λ i, off ≤ i) (unitIndex <$> List.filter idle (viewGPU h <$> gpus)).
Proof.
  revert off. induction gpus as [|u gpus IH]; intros off Hidx.
  - simpl. split; constructor.
  - destruct (IH (off + 1)) as [Hs Hb].
    { intros k v Hk. rewrite (Hidx (S k) v Hk). lia. }
    pose proof (Hidx 0%nat u eq_refl) as Hu.
    simpl. destruct (idle (viewGPU h u)); simpl.
    + split.
      * constructor; [done|]. eapply Forall_impl; [exact Hb|]. simpl; lia.
      * constructor; [lia|]. eapply Forall_impl; [exact Hb|]. simpl; lia.
    + split; [done|]. eapply Forall_impl; [exact Hb|]. simpl; lia.
Qed.

(** C4. On every model whose slots carry their own position as index (as
    every model built by [NewGPUNode] does, [NewGPUNode_indexed]),
    [GPUAssumeFitIndexes] returns, without an error and without writing the
    heap, exactly the indexes of the units that have no exclusive lock and
    zero used memory, in ascending order; the list is empty when no unit
    qualifies. *)
Theorem GPUAssumeFitIndexes_idle_units (h : Heap) (n : gpuNode)
  (gpuLimit : Quantity) :
  indexed h (gpus n) →
  let fits := unitIndex <$> List.filter idle (view h n) in
  GPUAssumeFitIndexes n gpuLimit h = Ok (fits, h)
  ∧ StronglySorted Z.lt fits
  ∧ (∀ i, i ∈ fits ↔
          ∃ u, u ∈ view h n ∧ unitIndex u = i
               ∧ exclusiveLock u = false ∧ resource.value (usedBytes u) = 0)
  ∧ (Forall (λ u, idle u = false) (view h n) → fits = []).
Proof.
  intros Hidx fits. split; [|split; [|split]].
  - unfold GPUAssumeFitIndexes. rewrite gpuFit_loop; [done|].
    intros u Hu. apply list_elem_of_lookup in Hu as [k Hk].
    by apply (Hidx k u).
  - apply (filter_indexes_sorted h (gpus n) 0).
    intros k u Hu. destruct (Hidx k u Hu) as [-> _]. lia.
  - intros i. unfold fits. rewrite list_elem_of_fmap. split.
    + intros (u & -> & Hu). exists u.
      apply list_elem_of_In, filter_In in Hu as [Hu Hid].
      apply list_elem_of_In in Hu. unfold idle in Hid.
      apply andb_prop in Hid as [Hl Hz]. apply negb_true_iff in Hl.
      apply Z.eqb_eq in Hz. done.
    + intros (u & Hu & Hi & Hl & Hz). exists u. split; [done|].
      apply list_elem_of_In, filter_In. split; [by apply list_elem_of_In|].
      unfold idle, resource.IsZero. rewrite Hl, Hz. done.
  - intros Hall. unfold fits.
    induction (view h n) as [|u us IH]; [done|].
    apply Forall_cons in Hall as [Hu Hus]. simpl. rewrite Hu. by apply IH.
Qed.

Lemma sampleNode_indexed : indexed sampleHeap (gpus sampleNode).
Proof.
  intros [|[|k]] u Hu; simpl in Hu; try done;
    injection Hu as <-; simpl; (split; [done|by eexists]).
Qed.

Lemma GPUAssumeFitIndexes_idle_units_witness :
  indexed sampleHeap (gpus sampleNode)
  ∧ GPUAssumeFitIndexes sampleNode (resource.NewQuantity 1) sampleHeap
    = Ok ([1], sampleHeap).
Proof.
  split; [exact sampleNode_indexed|].
  exact (proj1 (GPUAssumeFitIndexes_idle_units sampleHeap sampleNode
                  (resource.NewQuantity 1) sampleNode_indexed)).
Defined.

(** C10. [GPUAssumeFitIndexes] never reads its [gpuLimit] argument: any two
    requested quantities give the same outcome on the same model. *)
Theorem GPUAssumeFitIndexes_ignores_request (n : gpuNode) (q1 q2 : Quantity)
  (h : Heap) :
  GPUAssumeFitIndexes n q1 h = GPUAssumeFitIndexes n q2 h.
Proof. reflexivity. Qed.

(** ** The shared-memory fit finder *)

Lemma firstFit_ext requested cap us us' :
  Forall2 (λ a b, unitIndex a = unitIndex b ∧ exclusiveLock a = exclusiveLock b
                  ∧ usedBytes a = usedBytes b) us us' →
  firstFit requested cap us = firstFit requested cap us'.
Proof.
  intros H. revert cap. induction H as [|a b us us' (Hi & Hl & Hu) _ IH]; intros cap.
  - done.
  - simpl. rewrite Hi, Hl, Hu. by rewrite !IH.
Qed.

Lemma memFit_loop requested mem us : ∀ (h : Heap) cap fits,
  (∀ u, u ∈ us → memory u = mem ∧ is_Some (h !! usedMemory u)) →
  NoDup (usedMemory <$> us) → mem ∉ (usedMemory <$> us) →
  h !! mem = Some cap →
  ∃ h', foldM (memFitStep requested) fits us h
        = Ok (fits ++ ((λ i, mkFit i mem) <$> firstFit requested cap (viewGPU h <$> us)), h')
    ∧ length h' = length h
    ∧ is_Some (h' !! mem)
    ∧ (∀ l, l ≠ mem → l ∉ (usedMemory <$> us) → h' !! l = h !! l)
    ∧ (∀ u, u ∈ us →
            h' !! usedMemory u
            = Some (resource.Add (h !!! usedMemory u) requested)).
Proof.
  induction us as [|u us IH]; intros h cap fits Hus Hnd Hmem Hcap.
  - exists h. simpl. rewrite app_nil_r. repeat split; try done.
    intros u Hu. by apply elem_of_nil in Hu.
  - destruct (Hus u) as [Hm [v Hv]]; [by left|].
    rewrite fmap_cons in Hnd, Hmem. apply NoDup_cons in Hnd as [Hnotin Hnd].
    apply not_elem_of_cons in Hmem as [Hne Hmem].
    set (a := resource.Add v requested).
    set (h1 := <[usedMemory u := a]> h).
    assert (Hlt : (usedMemory u < length h)%nat) by (by eapply lookup_lt_Some).
    assert (Hv1 : h1 !! usedMemory u = Some a)
      by (by apply list_lookup_insert_eq).
    assert (Hcap1 : h1 !! mem = Some cap)
      by (unfold h1; by rewrite list_lookup_insert_ne).
    assert (Hstep : memFitStep requested fits u h
                    = if negb (monopoly u) && (0 <=? resource.Cmp cap a)
                      then Ok (fits ++ [mkFit (index u) mem],
                               <[mem := resource.Sub cap a]> h1)
                      else Ok (fits, h1)).
    { unfold memFitStep.
      rewrite (bind_Ok _ _ _ _ _ (Quantity_Add_Ok _ _ _ _ Hv)). fold a. fold h1.
      destruct (monopoly u); [done|]. simpl.
      rewrite (bind_Ok _ _ _ _ _ (load_Ok _ _ _ Hv1)).
      rewrite Hm, (bind_Ok _ _ _ _ _ (load_Ok _ _ _ Hcap1)).
      destruct (0 <=? resource.Cmp cap a); [|done].
      rewrite (bind_Ok _ _ _ _ _ (load_Ok _ _ _ Hv1)).
      by rewrite (bind_Ok _ _ _ _ _ (Quantity_Sub_Ok _ _ _ _ Hcap1)). }
    simpl foldM. unfold mbind at 1, M_bind at 1. rewrite Hstep.
    assert (Hview : ∀ h2, (∀ l, l ≠ mem → l ≠ usedMemory u → h2 !! l = h !! l) →
              Forall2 (λ a b, unitIndex a = unitIndex b
                              ∧ exclusiveLock a = exclusiveLock b
                              ∧ usedBytes a = usedBytes b)
                (viewGPU h2 <$> us) (viewGPU h <$> us)).
    { intros h2 Hh2. apply Forall2_fmap, Forall_Forall2_diag, Forall_forall.
      intros w Hw. simpl. split; [done|]. split; [done|].
      rewrite !list_lookup_total_alt, Hh2; [done| |].
      - intros E. apply Hmem. rewrite <- E. by apply list_elem_of_fmap_2.
      - intros E. apply Hnotin. rewrite <- E. by apply list_elem_of_fmap_2. }
    rewrite fmap_cons. cbn [firstFit viewGPU usedBytes exclusiveLock unitIndex].
    rewrite (lookup_total_Some _ _ _ Hv). fold a.
    destruct (negb (monopoly u) && (0 <=? resource.Cmp cap a)).
    + set (h2 := <[mem := resource.Sub cap a]> h1).
      assert (Hcap2 : h2 !! mem = Some (resource.Sub cap a)).
      { apply list_lookup_insert_eq. unfold h1. rewrite length_insert.
        by eapply lookup_lt_Some. }
      assert (Hfr : ∀ l, l ≠ mem → l ≠ usedMemory u → h2 !! l = h !! l).
      { intros l H1 H2. unfold h2, h1. by rewrite !list_lookup_insert_ne. }
      destruct (IH h2 (resource.Sub cap a) (fits ++ [mkFit (index u) mem]))
        as (h' & E & Hlen & Hsome & Hother & Hused); try done.
      { intros w Hw. destruct (Hus w) as [? [x Hx]]; [by right|].
        split; [done|]. apply lookup_lt_is_Some_2.
        unfold h2, h1. rewrite !length_insert. by eapply lookup_lt_Some. }
      exists h'. rewrite E, (firstFit_ext _ _ _ _ (Hview h2 Hfr)).
      rewrite <- app_assoc. split; [done|].
      split; [by rewrite Hlen; unfold h2, h1; rewrite !length_insert|].
      split; [done|]. split.
      * intros l H1 H2. rewrite fmap_cons in H2.
        apply not_elem_of_cons in H2 as [H2 H3]. rewrite Hother by done.
        by apply Hfr.
      * intros w Hw. apply elem_of_cons in Hw as [->|Hw].
        -- rewrite Hother by done. unfold h2.
           rewrite list_lookup_insert_ne by done.
           by rewrite Hv1, (lookup_total_Some _ _ _ Hv).
        -- rewrite (Hused w Hw). f_equal. f_equal.
           rewrite !list_lookup_total_alt, Hfr; [done| |].
           ++ intros E'. apply Hmem. rewrite <- E'. by apply list_elem_of_fmap_2.
           ++ intros E'. apply Hnotin. rewrite <- E'. by apply list_elem_of_fmap_2.
    + assert (Hfr : ∀ l, l ≠ mem → l ≠ usedMemory u → h1 !! l = h !! l).
      { intros l H1 H2. unfold h1. by rewrite !list_lookup_insert_ne. }
      destruct (IH h1 cap fits) as (h' & E & Hlen & Hsome & Hother & Hused); try done.
      { intros w Hw. destruct (Hus w) as [? [x Hx]]; [by right|].
        split; [done|]. apply lookup_lt_is_Some_2.
        unfold h1. rewrite !length_insert. by eapply lookup_lt_Some. }
      exists h'. rewrite E, (firstFit_ext _ _ _ _ (Hview h1 Hfr)).
      split; [done|].
      split; [by rewrite Hlen; unfold h1; rewrite !length_insert|].
      split; [done|]. split.
      * intros l H1 H2. rewrite fmap_cons in H2.
        apply not_elem_of_cons in H2 as [H2 H3]. rewrite Hother by done.
        by apply Hfr.
      * intros w Hw. apply elem_of_cons in Hw as [->|Hw].
        -- rewrite Hother by done.
           by rewrite Hv1, (lookup_total_Some _ _ _ Hv).
        -- rewrite (Hused w Hw). f_equal. f_equal.
           rewrite !list_lookup_total_alt, Hfr; [done| |].
           ++ intros E'. apply Hmem. rewrite <- E'. by apply list_elem_of_fmap_2.
           ++ intros E'. apply Hnotin. rewrite <- E'. by apply list_elem_of_fmap_2.
Qed.

(** On every model of the shape [constructGPUs] builds, with [cap] in the
    shared capacity cell, [MemAssumeFitIndexes] returns [firstFit] of the
    units, in slice order, and leaves every unit's used memory raised by the
    request. *)
Lemma MemAssumeFitIndexes_firstFit mem base (h : Heap) n requested cap :
  built mem base h (gpus n) → h !! mem = Some cap →
  ∃ h', MemAssumeFitIndexes n requested h
        = Ok (firstFit requested cap (view h n), h')
    ∧ usedBytes <$> view h' n
      = (λ v, resource.Add v requested) <$> (usedBytes <$> view h n).
Proof.
  intros Hb Hcap. destruct (built_NoDup _ _ _ _ Hb) as (Hnd & Hmem & Hus).
  destruct (memFit_loop requested mem (gpus n) h cap [] Hus Hnd Hmem Hcap)
    as (h' & E & Hlen & [c Hc] & Hother & Hused).
  exists h'. split.
  - unfold MemAssumeFitIndexes. rewrite (bind_Ok _ _ _ _ _ E).
    unfold sortFits, mbind, M_bind, mret, M_ret. simpl.
    rewrite sort_Slice_no_less.
    + rewrite <- list_fmap_compose. unfold view.
      f_equal. f_equal. apply list_fmap_id.
    + intros x y Hx Hy.
      apply list_elem_of_fmap in Hx as (i & -> & _).
      apply list_elem_of_fmap in Hy as (j & -> & _).
      unfold lessRemain. simpl. by rewrite Cmp_refl.
  - unfold view. rewrite <- !list_fmap_compose. apply list_eq. intros k.
    rewrite !list_lookup_fmap. destruct (gpus n !! k) as [u|] eqn:Eu; [|done].
    simpl. f_equal. apply lookup_total_Some, Hused.
    apply list_elem_of_lookup. by exists k.
Qed.

(** The head of [firstFit] is the first unit, in slice order, that is free of
    the exclusive lock and has room for the request in the full capacity. *)
Lemma firstFit_head requested cap units :
  head (firstFit requested cap units)
  = unitIndex <$>
      head (List.filter
              (λ u, negb (exclusiveLock u)
                    && (0 <=? resource.Cmp cap (resource.Add (usedBytes u) requested)))
              units).
Proof.
  induction units as [|u us IH]; [done|]. simpl.
  by destruct (negb (exclusiveLock u) && _).
Qed.

(** C1 fails on the code.  For a request of 2 on [tightMachine] both units
    are candidates and unit 1 is the tightest (headroom 1 against 6), but
    [MemAssumeFitIndexes] returns unit 0 alone: [remain.Sub] has lowered the
    capacity cell that all units share before unit 1 is examined.  For a
    request of 1 on [roomyMachine] both units are returned, in index order
    instead of headroom order: every [remain] is the same cell, so the sort
    sees equal keys. *)
Theorem MemAssumeFitIndexes_not_best_fit :
  rebuild tightMachine
  = Ok [mkUnit 0 false (resource.NewQuantity 8) (resource.NewQuantity 0);
        mkUnit 1 false (resource.NewQuantity 8) (resource.NewQuantity 5)]
  ∧ Spec.sharedFit
      [mkUnit 0 false (resource.NewQuantity 8) (resource.NewQuantity 0);
       mkUnit 1 false (resource.NewQuantity 8) (resource.NewQuantity 5)]
      (resource.NewQuantity 2) = [1; 0]
  ∧ fitOn tightMachine (resource.NewQuantity 2) = Ok [0]
  ∧ rebuild roomyMachine
    = Ok [mkUnit 0 false (resource.NewQuantity 10) (resource.NewQuantity 0);
          mkUnit 1 false (resource.NewQuantity 10) (resource.NewQuantity 5)]
  ∧ Spec.sharedFit
      [mkUnit 0 false (resource.NewQuantity 10) (resource.NewQuantity 0);
       mkUnit 1 false (resource.NewQuantity 10) (resource.NewQuantity 5)]
      (resource.NewQuantity 1) = [1; 0]
  ∧ fitOn roomyMachine (resource.NewQuantity 1) = Ok [0; 1].
Proof. repeat split; vm_compute; reflexivity. Qed.

(** C2 fails on the code.  On the model of [singleMachine] a first
    [MemAssumeFitIndexes] for 5 returns unit 0 and leaves the unit with 5 used
    and capacity 3; a second call on the same model returns no unit and
    leaves 10 used. *)
Theorem MemAssumeFitIndexes_writes_model :
  ∃ n h0 h1 h2,
    NewGPUNode singleMachine [] = Ok (n, h0)
    ∧ view h0 n = [mkUnit 0 false (resource.NewQuantity 8) (resource.NewQuantity 0)]
    ∧ MemAssumeFitIndexes n (resource.NewQuantity 5) h0 = Ok ([0], h1)
    ∧ view h1 n = [mkUnit 0 false (resource.NewQuantity 3) (resource.NewQuantity 5)]
    ∧ MemAssumeFitIndexes n (resource.NewQuantity 5) h1 = Ok ([], h2)
    ∧ view h2 n = [mkUnit 0 false (resource.NewQuantity 3) (resource.NewQuantity 10)].
Proof.
  eexists _, _, _, _. repeat split; vm_compute; reflexivity.
Qed.

(** ** Reservation and rollback *)

(** [Reserve] leaves the pod as it is or sets its index annotation. *)
Lemma Reserve_pod lister p nodeName (h h' : Heap) st p' :
  Reserve lister p nodeName h = Ok ((st, p'), h') →
  p' = p ∨ ∃ v, p' = setAnnotation p GPUIndexAnnotationKey v.
Proof.
  unfold Reserve. destruct (lister nodeName) as [nodeInfo|err].
  2:{ intros [= _ <- _]. by left. }
  destruct (podResourceLimit GPUResourceName p) as [gl [|]],
           (podResourceLimit MemResourceName p) as [ml [|]]; simpl.
  - intros [= _ <- _]. by left.
  - intros E. apply bind_inv_Ok in E as (no & h1 & _ & E).
    apply bind_inv_Ok in E as (r & h2 & Er & E).
    apply bind_inv_Ok in Er as (idx & h3 & _ & Er).
    destruct idx as [|i0 idx]; injection Er as <- <-.
    + injection E as _ <- _. by left.
    + injection E as _ <- _. right. by eexists.
  - intros E. apply bind_inv_Ok in E as (no & h1 & _ & E).
    apply bind_inv_Ok in E as (r & h2 & Er & E). injection Er as <- <-.
    apply bind_inv_Ok in E as (idx & h3 & _ & E).
    destruct idx as [|i0 idx]; injection E as _ <- _; [by left|right; by eexists].
  - intros [= _ <- _]. by left.
Qed.

(** For a workload that declares exactly one resource, on a node whose model
    can be built, [Reserve] runs the matching fit finder; on an empty list it
    returns [Unschedulable] and leaves the pod alone, otherwise it writes the
    head of the list, printed by [Itoa], as the index annotation. *)
Lemma Reserve_records_head lister p nodeName nodeInfo (h h1 : Heap) no :
  lister nodeName = inl nodeInfo →
  NewGPUNode nodeInfo h = Ok (no, h1) →
  (declared GPUResourceName p → ¬ declared MemResourceName p →
   ∀ indexes h2,
     GPUAssumeFitIndexes no (podResourceLimit GPUResourceName p).1 h1
     = Ok (indexes, h2) →
     Reserve lister p nodeName h
     = Ok (match indexes with
           | [] => (Some (NewStatus Unschedulable
                            ("allocate index fail " +:+ GPUResourceName)), p)
           | i0 :: _ => (None, setAnnotation p GPUIndexAnnotationKey (strconv.Itoa i0))
           end, h2))
  ∧ (¬ declared GPUResourceName p → declared MemResourceName p →
     ∀ indexes h2,
       MemAssumeFitIndexes no (podResourceLimit MemResourceName p).1 h1
       = Ok (indexes, h2) →
       Reserve lister p nodeName h
       = Ok (match indexes with
             | [] => (Some (NewStatus Unschedulable
                              ("allocate index fail " +:+ MemResourceName)), p)
             | i0 :: _ => (None, setAnnotation p GPUIndexAnnotationKey (strconv.Itoa i0))
             end, h2)).
Proof.
  intros Hl Hn. split.
  - intros Hg Hm indexes h2 Hfit.
    apply podResourceLimit_exist in Hg. apply podResourceLimit_not_exist in Hm.
    unfold Reserve. rewrite Hl.
    split_limits p. rewrite (bind_Ok _ _ _ _ _ Hn).
    unfold mbind at 1, M_bind at 1. rewrite (bind_Ok _ _ _ _ _ Hfit).
    by destruct indexes.
  - intros Hg Hm indexes h2 Hfit.
    apply podResourceLimit_not_exist in Hg. apply podResourceLimit_exist in Hm.
    unfold Reserve. rewrite Hl.
    split_limits p. rewrite (bind_Ok _ _ _ _ _ Hn).
    unfold mbind at 1, M_bind at 1. unfold mret at 1, M_ret at 1.
    rewrite (bind_Ok _ _ _ _ _ Hfit).
    by destruct indexes.
Qed.

(** An exclusive request: [Reserve] records the lowest idle unit of the
    rebuilt model, or returns [Unschedulable] when no unit is idle. *)
Lemma Reserve_exclusive lister p nodeName nodeInfo units :
  lister nodeName = inl nodeInfo → rebuild nodeInfo = Ok units →
  declared GPUResourceName p → ¬ declared MemResourceName p →
  run (Reserve lister p nodeName)
  = Ok (match List.filter idle units with
        | [] => (Some (NewStatus Unschedulable
                         ("allocate index fail " +:+ GPUResourceName)), p)
        | u :: _ =>
            (None, setAnnotation p GPUIndexAnnotationKey (strconv.Itoa (unitIndex u)))
        end).
Proof.
  intros Hl Hr Hg Hm. apply rebuild_Ok in Hr as (n & h & En & ->).
  pose proof (NewGPUNode_indexed _ _ _ _ En) as Hidx.
  assert (Hfit : GPUAssumeFitIndexes n (podResourceLimit GPUResourceName p).1 h
                 = Ok (unitIndex <$> List.filter idle (view h n), h)).
  { unfold GPUAssumeFitIndexes. rewrite gpuFit_loop; [done|].
    intros u Hu. apply list_elem_of_lookup in Hu as [k Hk]. by apply (Hidx k u). }
  unfold run.
  rewrite (proj1 (Reserve_records_head _ _ _ _ _ _ _ Hl En) Hg Hm _ _ Hfit).
  by destruct (List.filter idle (view h n)).
Qed.

(** A shared request: [Reserve] records the head of [firstFit], the first
    unit in index order that has no exclusive lock and room for the request,
    or returns [Unschedulable] when there is none. *)
Lemma Reserve_shared lister p nodeName nodeInfo units gpuCnt memCnt :
  lister nodeName = inl nodeInfo → rebuild nodeInfo = Ok units →
  resource.AsInt64 (default resource.zero (Allocatable nodeInfo !! GPUResourceName))
  = Some gpuCnt →
  resource.AsInt64 (default resource.zero (Allocatable nodeInfo !! MemResourceName))
  = Some memCnt →
  ¬ declared GPUResourceName p → declared MemResourceName p →
  run (Reserve lister p nodeName)
  = Ok (match firstFit (podResourceLimit MemResourceName p).1
                (resource.NewQuantity (wrap64 (Z.quot memCnt gpuCnt))) units with
        | [] => (Some (NewStatus Unschedulable
                         ("allocate index fail " +:+ MemResourceName)), p)
        | i0 :: _ => (None, setAnnotation p GPUIndexAnnotationKey (strconv.Itoa i0))
        end).
Proof.
  intros Hl Hr Hgc Hmc Hg Hm. apply rebuild_Ok in Hr as (n & h & En & ->).
  destruct (NewGPUNode_Ok _ _ _ _ En) as (g & m & Hg' & Hm' & _ & _ & Hb & Hcap).
  rewrite Hgc in Hg'. rewrite Hmc in Hm'. injection Hg' as <-. injection Hm' as <-.
  destruct (MemAssumeFitIndexes_firstFit _ _ _ _
              (podResourceLimit MemResourceName p).1 _ Hb Hcap) as (h' & Hfit & _).
  unfold run.
  rewrite (proj2 (Reserve_records_head _ _ _ _ _ _ _ Hl En) Hg Hm _ _ Hfit).
  by destruct (firstFit _ _ _).
Qed.

(** C5 fails on the code for a shared request.  [Reserve] of a workload that
    asks for 2 on [tightMachine] records index 0, the first unit that fits,
    while the best fit of the specification is unit 1. *)
Theorem Reserve_records_first_fit :
  run (Reserve (λ _, inl tightMachine) (limitPod MemResourceName 2 None) "node")
  = Ok (None, setAnnotation (limitPod MemResourceName 2 None)
                GPUIndexAnnotationKey "0")
  ∧ ∃ units, rebuild tightMachine = Ok units
             ∧ head (Spec.sharedFit units (resource.NewQuantity 2)) = Some 1.
Proof.
  split; [vm_compute; reflexivity|].
  eexists. split; [vm_compute; reflexivity | vm_compute; reflexivity].
Qed.

Lemma lookupAnnotation_Unreserve p :
  lookupAnnotation (Unreserve p) GPUIndexAnnotationKey = (EmptyString, false).
Proof.
  unfold lookupAnnotation, Unreserve. simpl.
  destruct (Annotations p) as [m|]; simpl; [|done].
  by rewrite lookup_delete_eq.
Qed.

Lemma lookupAnnotation_Unreserve_ne p key :
  key ≠ GPUIndexAnnotationKey →
  lookupAnnotation (Unreserve p) key = lookupAnnotation p key.
Proof.
  intros Hne. unfold lookupAnnotation, Unreserve. simpl.
  destruct (Annotations p) as [m|]; simpl; [|done].
  by rewrite lookup_delete_ne.
Qed.

Lemma lookupAnnotation_set_ne p key v :
  key ≠ GPUIndexAnnotationKey →
  lookupAnnotation (setAnnotation p GPUIndexAnnotationKey v) key
  = lookupAnnotation p key.
Proof.
  intros Hne. unfold lookupAnnotation, setAnnotation. simpl.
  rewrite lookup_insert_ne by done.
  destruct (Annotations p) as [m|]; simpl; [done|]. by rewrite lookup_empty.
Qed.

(** C3. When [Reserve] has returned for a workload on the chosen machine and
    [Unreserve] follows, the workload is back without an index annotation and
    with its other annotations and its containers as before, and the model
    rebuilt for the machine is the one rebuilt before the reservation, also
    when the rolled-back workload is itself listed among the machine's pods
    (at any position, and in place of its state before the reservation when
    it had no index annotation then). *)
Theorem Reserve_Unreserve_rebuild (lister : string → NodeInfo + string)
  (p : Pod) (nodeName : string) (nodeInfo : NodeInfo) (st : option Status)
  (p' : Pod) (l1 l2 : list Pod) :
  lister nodeName = inl nodeInfo →
  Pods nodeInfo = l1 ++ l2 →
  run (Reserve lister p nodeName) = Ok (st, p') →
  rebuild (mkNodeInfo (Allocatable nodeInfo) (l1 ++ Unreserve p' :: l2))
  = rebuild nodeInfo
  ∧ ((lookupAnnotation p GPUIndexAnnotationKey).2 = false →
     rebuild (mkNodeInfo (Allocatable nodeInfo) (l1 ++ Unreserve p' :: l2))
     = rebuild (mkNodeInfo (Allocatable nodeInfo) (l1 ++ p :: l2)))
  ∧ Containers (Unreserve p') = Containers p
  ∧ lookupAnnotation (Unreserve p') GPUIndexAnnotationKey = (EmptyString, false)
  ∧ ∀ key, key ≠ GPUIndexAnnotationKey →
           lookupAnnotation (Unreserve p') key = lookupAnnotation p key.
Proof.
  intros Hnode Hpods E.
  assert (Hskip : target (Unreserve p') = None).
  { apply target_unannotated. by rewrite lookupAnnotation_Unreserve. }
  assert (Hp' : p' = p ∨ ∃ v, p' = setAnnotation p GPUIndexAnnotationKey v).
  { unfold run in E.
    destruct (Reserve lister p nodeName []) as [[[st0 p0] h']|] eqn:Er; [|done].
    injection E as <- <-. by eapply Reserve_pod. }
  destruct nodeInfo as [alloc pods]. simpl in *. subst pods.
  split; [by apply rebuild_skip|]. split.
  - intros Hno. rewrite !rebuild_skip; [done| |done].
    by apply target_unannotated.
  - split; [by destruct Hp' as [->|[v ->]]|].
    split; [apply lookupAnnotation_Unreserve|].
    intros key Hne. rewrite lookupAnnotation_Unreserve_ne by done.
    destruct Hp' as [->|[v ->]]; [done|]. by apply lookupAnnotation_set_ne.
Qed.

Lemma Reserve_Unreserve_rebuild_witness :
  ∃ st p',
    run (Reserve (λ _, inl scenarioMachine)
           (limitPod GPUResourceName 1 None) "node") = Ok (st, p')
    ∧ rebuild (mkNodeInfo (Allocatable scenarioMachine)
                 ([] ++ Unreserve p' :: Pods scenarioMachine))
      = rebuild scenarioMachine.
Proof.
  eexists _, _. split; [vm_compute; reflexivity|].
  refine (proj1 (Reserve_Unreserve_rebuild (λ _, inl scenarioMachine)
                   (limitPod GPUResourceName 1 None) "node" scenarioMachine
                   _ _ [] (Pods scenarioMachine) eq_refl eq_refl _)).
  vm_compute. reflexivity.
Defined.

(** ** The scenario of the specification *)

(** The scenario of the specification (section 8): a machine of two units
    and 16 of memory; the workloads A to E arrive in turn, each placed with
    the index [Reserve] has recorded for it. *)
Lemma scenario :
  reserveOn [] podA = Ok (None, placed podA "0")
  ∧ reserveOn [placed podA "0"] podB = Ok (None, placed podB "0")
  ∧ reserveOn [placed podA "0"; placed podB "0"] podC = Ok (None, placed podC "1")
  ∧ reserveOn [placed podA "0"; placed podB "0"; placed podC "1"] podD
    = Ok (None, placed podD "0")
  ∧ reserveOn [placed podA "0"; placed podB "0"; placed podC "1"; placed podD "0"] podE
    = Ok (Some (NewStatus Unschedulable "allocate index fail nvidia.flex.com/memory"),
          podE)
  ∧ rebuild (machine 2 16 [placed podA "0"; placed podB "0"; placed podC "1";
                           placed podD "0"])
    = Ok [mkUnit 0 false (resource.NewQuantity 8) (resource.NewQuantity 8);
          mkUnit 1 true (resource.NewQuantity 8) (resource.NewQuantity 0)].
Proof. repeat split; vm_compute; reflexivity. Qed.

(** ** The units rebuilt from the placed pods *)

Lemma placePod_slot mem base (h h' : Heap) gpus gpus' pod k u :
  built mem base h gpus → placePod gpus pod h = Ok (gpus', h') →
  gpus !! k = Some u →
  ∃ u', gpus' !! k = Some u'
        ∧ monopoly u' = lockStep (Z.of_nat k) (monopoly u) pod
        ∧ h' !!! usedMemory u'
          = usedStep (Z.of_nat k) (h !!! usedMemory u) pod.
Proof.
  intros Hb E Hu. unfold lockStep, usedStep, charges.
  destruct (target pod) as [i|] eqn:Ht.
  2:{ rewrite (placePod_skip _ _ Ht) in E. injection E as <- <-.
      exists u. rewrite bool_decide_eq_false_2 by done. simpl.
      by rewrite orb_false_r. }
  destruct (decide (0 ≤ i < Z.of_nat (length gpus))) as [Hi|Hi].
  2:{ by rewrite (placePod_out_of_range _ _ _ _ Ht Hi) in E. }
  destruct (built_lookup _ _ _ _ _ Hb Hi) as (w & q & Hw & Hq & Hused).
  rewrite (placePod_in_range _ _ _ _ _ _ Ht (proj1 Hi) Hw Hq) in E.
  injection E as <- <-. destruct Hb as (Hm & Hlen & Hk).
  destruct (Hk _ _ Hu) as (_ & _ & Husedu).
  destruct (decide (i = Z.of_nat k)) as [->|Hne].
  - rewrite Nat2Z.id in Hw. rewrite Hw in Hu. injection Hu as ->.
    rewrite bool_decide_eq_true_2 by done. simpl.
    assert (Hlt : (k < length gpus)%nat) by (by eapply lookup_lt_Some).
    destruct (podResourceLimit GPUResourceName pod).2.
    + exists (setMonopoly u). rewrite Nat2Z.id.
      split; [by apply list_lookup_insert_eq|]. split; [by rewrite orb_true_r|].
      simpl. destruct (podResourceLimit MemResourceName pod).2; [|done].
      rewrite (lookup_total_Some _ _ _ Hq). apply lookup_total_Some.
      apply list_lookup_insert_eq. by eapply lookup_lt_Some.
    + exists u. split; [done|]. split; [by rewrite orb_false_r|].
      destruct (podResourceLimit MemResourceName pod).2; [|done].
      rewrite (lookup_total_Some _ _ _ Hq). apply lookup_total_Some.
      apply list_lookup_insert_eq. by eapply lookup_lt_Some.
  - rewrite bool_decide_eq_false_2 by congruence. simpl.
    rewrite orb_false_r. exists u.
    assert (Hnk : Z.to_nat i ≠ k) by lia.
    split.
    { destruct (podResourceLimit GPUResourceName pod).2; [|done].
      by rewrite list_lookup_insert_ne. }
    split; [done|].
    destruct (podResourceLimit MemResourceName pod).2; [|done].
    rewrite !list_lookup_total_alt, list_lookup_insert_ne; [done|lia].
Qed.

Lemma foldM_placePod_slot mem base pods : ∀ (h h' : Heap) gpus gpus' k u,
  built mem base h gpus → foldM placePod gpus pods h = Ok (gpus', h') →
  gpus !! k = Some u →
  ∃ u', gpus' !! k = Some u'
        ∧ monopoly u' = foldl (lockStep (Z.of_nat k)) (monopoly u) pods
        ∧ h' !!! usedMemory u'
          = foldl (usedStep (Z.of_nat k)) (h !!! usedMemory u) pods.
Proof.
  induction pods as [|pod pods IH]; intros h h' gpus gpus' k u Hb E Hu.
  - injection E as <- <-. by exists u.
  - simpl in E. apply bind_inv_Ok in E as (g1 & h1 & E1 & E2).
    destruct (placePod_slot _ _ _ _ _ _ _ _ _ Hb E1 Hu) as (u1 & Hu1 & Hl1 & Hq1).
    destruct (placePod_built _ _ _ _ _ _ _ Hb E1) as (Hb1 & _ & _).
    destruct (IH _ _ _ _ _ _ Hb1 E2 Hu1) as (u' & Hu' & Hl & Hq).
    exists u'. simpl. rewrite <- Hl1, <- Hq1. done.
Qed.

(** A successful [NewGPUNode], step by step: the fresh slots, then the loop
    over the placed pods. *)
Lemma NewGPUNode_steps nodeInfo (h0 h : Heap) n :
  NewGPUNode nodeInfo h0 = Ok (n, h) →
  ∃ g0 h1,
    built (length h0) (S (length h0)) h1 g0
    ∧ (∀ k u, g0 !! k = Some u →
              monopoly u = false ∧ h1 !!! usedMemory u = resource.NewQuantity 0)
    ∧ foldM placePod g0 (Pods nodeInfo) h1 = Ok (gpus n, h).
Proof.
  intros E. destruct (NewGPUNode_Ok _ _ _ _ E) as (g & m & Hg & Hm & Hpos & _).
  rewrite (NewGPUNode_unfold _ _ _ _ Hg Hm Hpos) in E.
  set (hc := h0 ++ [resource.NewQuantity (wrap64 (Z.quot m g))]) in *.
  destruct (newGPUs_spec (Z.to_nat g) 0 (length h0) hc) as (g0 & E0 & Hlen & Hk).
  destruct (newGPUs_built (Z.to_nat g) (length h0) hc) as (g0' & E0' & _ & Hb).
  { unfold hc. rewrite length_app. simpl. lia. }
  rewrite E0 in E0'. injection E0' as <-.
  rewrite E0 in E.
  destruct (foldM placePod g0 (Pods nodeInfo) _) as [[g1 h2]|] eqn:Ef; [|done].
  injection E as <- <-. exists g0, (hc ++ replicate (Z.to_nat g) (resource.NewQuantity 0)).
  assert (Hhc : length hc = S (length h0)).
  { unfold hc. rewrite length_app. simpl. lia. }
  rewrite Hhc in Hb. split; [done|]. split; [|done].
  intros k u Hu. destruct (Hk k u Hu) as (_ & Hmono & _ & Hused).
  split; [done|]. apply lookup_total_Some. rewrite Hused.
  rewrite lookup_app_r by lia.
  replace (length hc + k - length hc)%nat with k by lia.
  apply lookup_replicate_2. apply lookup_lt_Some in Hu. lia.
Qed.

(** X1. In the model rebuilt for a node, slot [k] carries index [k]; it is
    locked exactly when some placed pod that declares the exclusive resource
    carries index annotation [k], and its used memory is the sum, in pod
    order, of the memory limits of the placed pods that declare the shared
    resource and carry index annotation [k]. *)
Theorem rebuild_from_pods (nodeInfo : NodeInfo) (units : list Unit) :
  rebuild nodeInfo = Ok units →
  ∀ k u, units !! k = Some u →
         unitIndex u = Z.of_nat k
         ∧ exclusiveLock u = lockedBy (Z.of_nat k) (Pods nodeInfo)
         ∧ usedBytes u = usedBy (Z.of_nat k) (Pods nodeInfo).
Proof.
  intros Hr k u Hu. apply rebuild_Ok in Hr as (n & h & En & ->).
  destruct (NewGPUNode_steps _ _ _ _ En) as (g0 & h1 & Hb & Hfresh & Ef).
  unfold view in Hu. rewrite list_lookup_fmap in Hu.
  destruct (gpus n !! k) as [w|] eqn:Hw; [|done]. injection Hu as <-.
  destruct (foldM_placePod_built _ _ _ _ _ _ _ Hb Ef) as (Hb' & Hlen & _).
  destruct (lookup_lt_is_Some_2 g0 k) as [w0 Hw0].
  { rewrite <- Hlen. by eapply lookup_lt_Some. }
  destruct (foldM_placePod_slot _ _ _ _ _ _ _ _ _ Hb Ef Hw0) as (w' & Hw' & Hl & Hq).
  rewrite Hw in Hw'. injection Hw' as <-.
  destruct (Hfresh _ _ Hw0) as [Hm0 Hz0]. rewrite Hm0 in Hl. rewrite Hz0 in Hq.
  destruct Hb' as (_ & _ & Hk). destruct (Hk _ _ Hw) as (Hi & _ & _).
  simpl. done.
Qed.

Lemma rebuild_from_pods_witness :
  ∃ u, rebuild tightMachine = Ok [mkUnit 0 false (resource.NewQuantity 8)
                                    (resource.NewQuantity 0); u]
       ∧ exclusiveLock u = lockedBy 1 (Pods tightMachine)
       ∧ usedBytes u = usedBy 1 (Pods tightMachine).
Proof.
  eexists. split; [vm_compute; reflexivity|].
  pose proof (rebuild_from_pods tightMachine _ ltac:(vm_compute; reflexivity)
                1%nat _ eq_refl) as (_ & Hl & Hu).
  split; [exact Hl|exact Hu].
Defined.

(** ** A reservation, then the next rebuild *)

(** [NewGPUNode] on a node with readable, positive unit count: the fresh
    slots do not depend on the placed pods, which are then folded in. *)
Lemma NewGPUNode_fold alloc gpuCnt memCnt (h0 : Heap) :
  resource.AsInt64 (default resource.zero (alloc !! GPUResourceName)) = Some gpuCnt →
  resource.AsInt64 (default resource.zero (alloc !! MemResourceName)) = Some memCnt →
  0 < gpuCnt ≤ maxSliceLen →
  ∃ g0 h1,
    built (length h0) (S (length h0)) h1 g0
    ∧ length g0 = Z.to_nat gpuCnt
    ∧ ∀ pods, NewGPUNode (mkNodeInfo alloc pods) h0
              = match foldM placePod g0 pods h1 with
                | Ok (g, h2) =>
                    Ok (mkGpuNode (default resource.zero (alloc !! GPUResourceName))
                          (default resource.zero (alloc !! MemResourceName)) g, h2)
                | Panic msg => Panic msg
                end.
Proof.
  intros Hg Hm Hpos.
  set (hc := h0 ++ [resource.NewQuantity (wrap64 (Z.quot memCnt gpuCnt))]).
  destruct (newGPUs_built (Z.to_nat gpuCnt) (length h0) hc) as (g0 & E0 & Hlen & Hb).
  { unfold hc. rewrite length_app. simpl. lia. }
  assert (Hhc : length hc = S (length h0)).
  { unfold hc. rewrite length_app. simpl. lia. }
  rewrite Hhc in Hb.
  exists g0, (hc ++ replicate (Z.to_nat gpuCnt) (resource.NewQuantity 0)).
  split; [done|]. split; [done|]. intros pods.
  rewrite (NewGPUNode_unfold (mkNodeInfo alloc pods) gpuCnt memCnt h0 Hg Hm Hpos).
  fold hc. by rewrite E0.
Qed.

(** One more pod at the end of the node's list: the model changes at the slot
    the pod charges and nowhere else. *)
Lemma rebuild_snoc alloc pods pod units :
  rebuild (mkNodeInfo alloc pods) = Ok units →
  (∀ i, target pod = Some i → 0 ≤ i < Z.of_nat (length units)) →
  rebuild (mkNodeInfo alloc (pods ++ [pod]))
  = Ok (imap (λ j u, placeUnit (Z.of_nat j) pod u) units).
Proof.
  intros Hr Hrange. apply rebuild_Ok in Hr as (n & h & En & ->).
  destruct (NewGPUNode_Ok _ _ _ _ En) as (g & m & Hg & Hm & Hpos & _).
  simpl in Hg, Hm.
  destruct (NewGPUNode_fold alloc g m [] Hg Hm Hpos) as (g0 & h1 & Hb & _ & Hfold).
  rewrite Hfold in En.
  destruct (foldM placePod g0 pods h1) as [[g1 h2]|] eqn:Ef; [|done].
  injection En as <- <-. simpl in *.
  destruct (foldM_placePod_built _ _ _ _ _ _ _ Hb Ef) as (Hb1 & _ & _).
  unfold view in Hrange. simpl in Hrange. rewrite length_fmap in Hrange.
  destruct (placePod_total _ _ _ _ _ Hb1 Hrange) as (g2 & h3 & Ep).
  destruct (placePod_built _ _ _ _ _ _ _ Hb1 Ep) as (Hb2 & Hlen2 & Hframe).
  unfold rebuild. rewrite Hfold, foldM_app, (bind_Ok _ _ _ _ _ Ef).
  simpl. rewrite (bind_Ok _ _ _ _ _ Ep). simpl. f_equal.
  unfold view. simpl. apply list_eq. intros j.
  rewrite list_lookup_imap, !list_lookup_fmap.
  destruct (g1 !! j) as [u|] eqn:Hu.
  - destruct (placePod_slot _ _ _ _ _ _ _ _ _ Hb1 Ep Hu) as (u' & Hu' & Hl & Hq).
    rewrite Hu'. simpl. f_equal. unfold viewGPU, placeUnit. simpl.
    destruct Hb1 as (Hm1 & _ & Hk1). destruct Hb2 as (_ & _ & Hk2).
    destruct (Hk1 _ _ Hu) as (Hi & Hmem & _).
    destruct (Hk2 _ _ Hu') as (Hi' & Hmem' & _).
    rewrite Hi, Hi', Hl, Hq, Hmem, Hmem'. f_equal.
    by rewrite !list_lookup_total_alt, Hframe.
  - apply lookup_ge_None in Hu. rewrite <- Hlen2 in Hu.
    apply lookup_ge_None in Hu. by rewrite Hu.
Qed.

Lemma Reserve_panics lister p nodeName nodeInfo (h : Heap) msg :
  NewGPUNode nodeInfo h = Panic msg →
  lister nodeName = inl nodeInfo → declaresOne p →
  Reserve lister p nodeName h = Panic msg.
Proof.
  intros Hn Hl Hone. unfold Reserve. rewrite Hl.
  destruct Hone as [[Hg Hm]|[Hg Hm]].
  - apply podResourceLimit_exist in Hg. apply podResourceLimit_not_exist in Hm.
    split_limits p. by apply bind_Panic.
  - apply podResourceLimit_not_exist in Hg. apply podResourceLimit_exist in Hm.
    split_limits p. by apply bind_Panic.
Qed.

Lemma Reserve_Ok_rebuild lister p nodeName nodeInfo r :
  lister nodeName = inl nodeInfo → declaresOne p →
  run (Reserve lister p nodeName) = Ok r →
  ∃ units, rebuild nodeInfo = Ok units.
Proof.
  intros Hl Hone E. unfold rebuild.
  destruct (NewGPUNode nodeInfo []) as [[n h]|msg] eqn:En; [by eexists|].
  unfold run in E. by rewrite (Reserve_panics _ _ _ _ _ _ En Hl Hone) in E.
Qed.

Lemma rebuild_unitIndex nodeInfo units k u :
  rebuild nodeInfo = Ok units → units !! k = Some u → unitIndex u = Z.of_nat k.
Proof.
  intros Hr Hu. apply rebuild_Ok in Hr as (n & h & En & ->).
  unfold view in Hu. rewrite list_lookup_fmap in Hu.
  destruct (gpus n !! k) as [w|] eqn:Hw; [|done]. injection Hu as <-.
  by destruct (NewGPUNode_indexed _ _ _ _ En k w Hw).
Qed.

Lemma rebuild_length_int64 nodeInfo units :
  rebuild nodeInfo = Ok units → Z.of_nat (length units) ≤ int64_max.
Proof.
  intros Hr. apply rebuild_Ok in Hr as (n & h & En & ->).
  destruct (NewGPUNode_Ok _ _ _ _ En) as (g & m & Hg & _ & _ & Hlen & _).
  apply AsInt64_in_int64 in Hg. unfold view. rewrite length_fmap. lia.
Qed.

Lemma declared_setAnnotation name p key v :
  declared name (setAnnotation p key v) ↔ declared name p.
Proof. done. Qed.

(** A pod that declares a resource and carries the index [Reserve] prints
    charges that index. *)
Lemma target_setAnnotation p i :
  declared GPUResourceName p ∨ declared MemResourceName p →
  0 ≤ i ≤ int64_max →
  target (setAnnotation p GPUIndexAnnotationKey (strconv.Itoa i)) = Some i.
Proof.
  intros Hd Hi. apply target_Some. split; [done|].
  unfold lookupAnnotation, setAnnotation. simpl. rewrite lookup_insert_eq. simpl.
  apply Atoi_Itoa. unfold int64_min. lia.
Qed.

Lemma placeUnit_other j pod u :
  charges j pod = false → placeUnit j pod u = u.
Proof.
  intros Hc. unfold placeUnit, lockStep, usedStep. rewrite Hc. simpl.
  rewrite orb_false_r. by destruct u.
Qed.

Lemma imap_placeUnit_alter pod k f units :
  target pod = Some (Z.of_nat k) →
  (∀ u, placeUnit (Z.of_nat k) pod u = f u) →
  imap (λ j u, placeUnit (Z.of_nat j) pod u) units = alter f k units.
Proof.
  intros Ht Hf. apply list_eq. intros j. rewrite list_lookup_imap.
  destruct (decide (j = k)) as [->|Hne].
  - rewrite list_lookup_alter_eq. destruct (units !! k); [|done].
    simpl. by rewrite Hf.
  - rewrite list_lookup_alter_ne by done. destruct (units !! j); [|done].
    simpl. rewrite placeUnit_other; [done|].
    unfold charges. apply bool_decide_eq_false_2. rewrite Ht. intros [= E]. lia.
Qed.

Lemma rebuild_counts nodeInfo units :
  rebuild nodeInfo = Ok units →
  ∃ gpuCnt memCnt,
    resource.AsInt64 (default resource.zero (Allocatable nodeInfo !! GPUResourceName))
    = Some gpuCnt
    ∧ resource.AsInt64 (default resource.zero (Allocatable nodeInfo !! MemResourceName))
      = Some memCnt
    ∧ 0 < gpuCnt ∧ Z.of_nat (length units) = gpuCnt
    ∧ Forall (λ u, capacityBytes u
                   = resource.NewQuantity (wrap64 (Z.quot memCnt gpuCnt))) units.
Proof.
  intros Hr. apply rebuild_Ok in Hr as (n & h & En & ->).
  destruct (NewGPUNode_Ok _ _ _ _ En) as (g & m & Hg & Hm & Hpos & Hlen & Hb & Hcap).
  exists g, m. split; [done|]. split; [done|]. split; [lia|].
  split; [by unfold view; rewrite length_fmap|].
  unfold view. apply Forall_fmap, Forall_lookup. intros k u Hu. simpl.
  destruct Hb as (_ & _ & Hk). destruct (Hk k u Hu) as (_ & -> & _).
  by apply lookup_total_Some.
Qed.

Lemma podResourceLimit_setAnnotation name p key v :
  podResourceLimit name (setAnnotation p key v) = podResourceLimit name p.
Proof. done. Qed.

Lemma head_filter_lookup {A} (P : A → bool) (l : list A) x :
  head (List.filter P l) = Some x → ∃ k, l !! k = Some x ∧ P x = true.
Proof.
  intros H. assert (Hin : In x (List.filter P l)).
  { destruct (List.filter P l); [done|]. injection H as ->. by left. }
  apply filter_In in Hin as [Hin HP].
  apply list_elem_of_In, list_elem_of_lookup in Hin as [k Hk]. by exists k.
Qed.

(** X2. A successful [Reserve] of an exclusive workload records the index of
    the lowest idle unit of the model rebuilt for the node; when the workload,
    as [Reserve] leaves it, is placed at the end of the node's pods, the next
    rebuild succeeds and differs from the previous model only in that this
    unit is locked. *)
Theorem Reserve_exclusive_then_rebuild (lister : string → NodeInfo + string)
  (p p' : Pod) (nodeName : string) (nodeInfo : NodeInfo) :
  lister nodeName = inl nodeInfo →
  declared GPUResourceName p → ¬ declared MemResourceName p →
  run (Reserve lister p nodeName) = Ok (None, p') →
  ∃ units u rest,
    rebuild nodeInfo = Ok units
    ∧ List.filter idle units = u :: rest
    ∧ lookupAnnotation p' GPUIndexAnnotationKey = (strconv.Itoa (unitIndex u), true)
    ∧ rebuild (mkNodeInfo (Allocatable nodeInfo) (Pods nodeInfo ++ [p']))
      = Ok (alter lockUnit (Z.to_nat (unitIndex u)) units).
Proof.
  intros Hl Hg Hm E.
  destruct (Reserve_Ok_rebuild _ _ _ _ _ Hl (or_introl (conj Hg Hm)) E) as [units Hr].
  rewrite (Reserve_exclusive _ _ _ _ _ Hl Hr Hg Hm) in E.
  destruct (List.filter idle units) as [|u rest] eqn:Hf; [done|].
  injection E as <-. exists units, u, rest. split; [done|]. split; [done|].
  destruct (head_filter_lookup idle units u) as (k & Hk & _); [by rewrite Hf|].
  pose proof (rebuild_unitIndex _ _ _ _ Hr Hk) as Hi.
  pose proof (rebuild_length_int64 _ _ Hr) as Hlen.
  assert (Hklt : (k < length units)%nat) by (by eapply lookup_lt_Some).
  assert (Ht : target (setAnnotation p GPUIndexAnnotationKey
                         (strconv.Itoa (unitIndex u))) = Some (Z.of_nat k)).
  { rewrite Hi. apply target_setAnnotation; [by left|lia]. }
  split.
  { unfold lookupAnnotation, setAnnotation. simpl. by rewrite lookup_insert_eq. }
  destruct nodeInfo as [alloc pods]. simpl.
  rewrite (rebuild_snoc _ _ _ _ Hr).
  2:{ intros i Hti. rewrite Ht in Hti. injection Hti as <-. lia. }
  f_equal. replace (Z.to_nat (unitIndex u)) with k by lia.
  apply imap_placeUnit_alter; [done|].
  intros w. unfold placeUnit, lockUnit, lockStep, usedStep, charges.
  rewrite Ht, bool_decide_eq_true_2 by done.
  apply podResourceLimit_exist in Hg. apply podResourceLimit_not_exist in Hm.
  simpl. rewrite !podResourceLimit_setAnnotation, Hg, Hm. simpl.
  by rewrite orb_true_r.
Qed.

Lemma Reserve_exclusive_then_rebuild_witness :
  ∃ p' units u rest,
    run (Reserve (λ _, inl scenarioMachine) podC "node") = Ok (None, p')
    ∧ rebuild scenarioMachine = Ok units
    ∧ List.filter idle units = u :: rest
    ∧ rebuild (mkNodeInfo (Allocatable scenarioMachine) (Pods scenarioMachine ++ [p']))
      = Ok (alter lockUnit (Z.to_nat (unitIndex u)) units).
Proof.
  assert (Hg : declared GPUResourceName podC).
  { eexists. split; [by left|]. vm_compute. by eexists. }
  assert (Hm : ¬ declared MemResourceName podC).
  { intros (c & Hc & Hs). apply list_elem_of_singleton in Hc as ->.
    vm_compute in Hs. by destruct Hs. }
  assert (E : ∃ p', run (Reserve (λ _, inl scenarioMachine) podC "node") = Ok (None, p')).
  { eexists. vm_compute. reflexivity. }
  destruct E as [p' E].
  destruct (Reserve_exclusive_then_rebuild (λ _, inl scenarioMachine) podC p' "node"
              scenarioMachine eq_refl Hg Hm E)
    as (units & u & rest & Hr & Hf & _ & Hn).
  exists p', units, u, rest.
  split; [exact E|]. split; [exact Hr|]. split; [exact Hf|exact Hn].
Defined.

(** X3. A successful [Reserve] of a shared workload records a unit that has
    no exclusive lock and whose capacity holds its used memory plus the
    request; when the workload, as [Reserve] leaves it, is placed at the end
    of the node's pods, the next rebuild succeeds and differs from the
    previous model only in that the request is added to this unit's used
    memory. *)
Theorem Reserve_shared_then_rebuild (lister : string → NodeInfo + string)
  (p p' : Pod) (nodeName : string) (nodeInfo : NodeInfo) :
  lister nodeName = inl nodeInfo →
  ¬ declared GPUResourceName p → declared MemResourceName p →
  run (Reserve lister p nodeName) = Ok (None, p') →
  let memLimit := (podResourceLimit MemResourceName p).1 in
  ∃ units k u,
    rebuild nodeInfo = Ok units
    ∧ units !! k = Some u
    ∧ exclusiveLock u = false
    ∧ 0 ≤ resource.Cmp (capacityBytes u) (resource.Add (usedBytes u) memLimit)
    ∧ lookupAnnotation p' GPUIndexAnnotationKey = (strconv.Itoa (Z.of_nat k), true)
    ∧ rebuild (mkNodeInfo (Allocatable nodeInfo) (Pods nodeInfo ++ [p']))
      = Ok (alter (chargeUnit memLimit) k units).
Proof.
  intros Hl Hg Hm E memLimit.
  destruct (Reserve_Ok_rebuild _ _ _ _ _ Hl (or_intror (conj Hg Hm)) E) as [units Hr].
  destruct (rebuild_counts _ _ Hr) as (g & m & Hgc & Hmc & _ & _ & Hcap).
  rewrite (Reserve_shared _ _ _ _ _ _ _ Hl Hr Hgc Hmc Hg Hm) in E. fold memLimit in E.
  set (cap := resource.NewQuantity (wrap64 (Z.quot m g))) in *.
  pose proof (firstFit_head memLimit cap units) as Hhead.
  destruct (firstFit memLimit cap units) as [|i0 fits] eqn:Hf; [done|].
  injection E as <-. simpl in Hhead.
  destruct (head (List.filter _ units)) as [u|] eqn:Hu; [|done].
  injection Hhead as ->.
  destruct (head_filter_lookup _ units u Hu) as (k & Hk & Hfit).
  apply andb_prop in Hfit as [Hlock Hroom].
  apply negb_true_iff in Hlock. apply Z.leb_le in Hroom.
  pose proof (rebuild_unitIndex _ _ _ _ Hr Hk) as Hi.
  pose proof (rebuild_length_int64 _ _ Hr) as Hlen.
  assert (Hklt : (k < length units)%nat) by (by eapply lookup_lt_Some).
  assert (Ht : target (setAnnotation p GPUIndexAnnotationKey
                         (strconv.Itoa (unitIndex u))) = Some (Z.of_nat k)).
  { rewrite Hi. apply target_setAnnotation; [by right|lia]. }
  exists units, k, u. split; [done|]. split; [done|]. split; [done|].
  split.
  { rewrite (proj1 (Forall_lookup _ _) Hcap k u Hk). done. }
  split.
  { unfold lookupAnnotation, setAnnotation. simpl.
    by rewrite lookup_insert_eq, Hi. }
  destruct nodeInfo as [alloc pods]. simpl.
  rewrite (rebuild_snoc _ _ _ _ Hr).
  2:{ intros i Hti. rewrite Ht in Hti. injection Hti as <-. lia. }
  f_equal. apply imap_placeUnit_alter; [done|].
  intros w. unfold placeUnit, chargeUnit, lockStep, usedStep, charges.
  rewrite Ht, bool_decide_eq_true_2 by done.
  apply podResourceLimit_not_exist in Hg. apply podResourceLimit_exist in Hm.
  simpl. rewrite !podResourceLimit_setAnnotation, Hg, Hm. simpl.
  by rewrite orb_false_r.
Qed.

Lemma Reserve_shared_then_rebuild_witness :
  ∃ p' units k,
    run (Reserve (λ _, inl scenarioMachine) podD "node") = Ok (None, p')
    ∧ rebuild scenarioMachine = Ok units
    ∧ rebuild (mkNodeInfo (Allocatable scenarioMachine) (Pods scenarioMachine ++ [p']))
      = Ok (alter (chargeUnit (resource.NewQuantity 1)) k units).
Proof.
  assert (Hg : ¬ declared GPUResourceName podD).
  { intros (c & Hc & Hs). apply list_elem_of_singleton in Hc as ->.
    vm_compute in Hs. by destruct Hs. }
  assert (Hm : declared MemResourceName podD).
  { eexists. split; [by left|]. vm_compute. by eexists. }
  assert (E : ∃ p', run (Reserve (λ _, inl scenarioMachine) podD "node") = Ok (None, p')).
  { eexists. vm_compute. reflexivity. }
  destruct E as [p' E].
  destruct (Reserve_shared_then_rebuild (λ _, inl scenarioMachine) podD p' "node"
              scenarioMachine eq_refl Hg Hm E)
    as (units & k & u & Hr & _ & _ & _ & _ & Hn).
  exists p', units, k. split; [exact E|]. split; [exact Hr|exact Hn].
Defined.

(** ** What [Reserve] does to the pod *)

Lemma podResourceLimit_Containers name p q :
  Containers q = Containers p → podResourceLimit name q = podResourceLimit name p.
Proof. intros E. unfold podResourceLimit. by rewrite E. Qed.

(** [Reserve] reads the pod's containers only: what it returns and records
    for a pod, it returns and records for every pod with the same
    containers. *)
Lemma Reserve_decision lister p nodeName (h h' : Heap) st p' :
  Reserve lister p nodeName h = Ok ((st, p'), h') →
  ∃ d, p' = recordIndex d p
       ∧ (is_Some st → d = None)
       ∧ ∀ q, Containers q = Containers p →
              Reserve lister q nodeName h = Ok ((st, recordIndex d q), h').
Proof.
  unfold Reserve. destruct (lister nodeName) as [nodeInfo|err].
  2:{ intros [= <- <- <-]. exists None. split; [done|]. split; [done|].
      intros q _. done. }
  intros E.
  assert (Hq : ∀ q, Containers q = Containers p →
                 podResourceLimit GPUResourceName q = podResourceLimit GPUResourceName p
                 ∧ podResourceLimit MemResourceName q
                   = podResourceLimit MemResourceName p).
  { intros q Hc. split; by apply podResourceLimit_Containers. }
  destruct (podResourceLimit GPUResourceName p) as [gl [|]] eqn:Egl,
           (podResourceLimit MemResourceName p) as [ml [|]] eqn:Eml;
    cbn [negb andb] in E.
  - injection E as <- <- <-. exists None. split; [done|]. split; [done|].
    intros q Hc. destruct (Hq q Hc) as [-> ->]. done.
  - apply bind_inv_Ok in E as (no & h1 & En & E).
    apply bind_inv_Ok in E as (r & h2 & Er & E).
    apply bind_inv_Ok in Er as (idx & h3 & Ei & Er).
    destruct idx as [|i0 idx]; injection Er as <- <-; injection E as <- <- <-.
    + exists None. split; [done|]. split; [done|].
      intros q Hc. destruct (Hq q Hc) as [-> ->]. cbn [negb andb].
      rewrite (bind_Ok _ _ _ _ _ En).
      unfold mbind at 1, M_bind at 1. by rewrite (bind_Ok _ _ _ _ _ Ei).
    + exists (Some (strconv.Itoa i0)). split; [done|].
      split; [by intros [? ?]|].
      intros q Hc. destruct (Hq q Hc) as [-> ->]. cbn [negb andb].
      rewrite (bind_Ok _ _ _ _ _ En).
      unfold mbind at 1, M_bind at 1. by rewrite (bind_Ok _ _ _ _ _ Ei).
  - apply bind_inv_Ok in E as (no & h1 & En & E).
    apply bind_inv_Ok in E as (r & h2 & Er & E). injection Er as <- <-.
    apply bind_inv_Ok in E as (idx & h3 & Ei & E).
    destruct idx as [|i0 idx]; injection E as <- <- <-.
    + exists None. split; [done|]. split; [done|].
      intros q Hc. destruct (Hq q Hc) as [-> ->]. cbn [negb andb].
      rewrite (bind_Ok _ _ _ _ _ En).
      unfold mbind at 1, M_bind at 1. unfold mret at 1, M_ret at 1.
      by rewrite (bind_Ok _ _ _ _ _ Ei).
    + exists (Some (strconv.Itoa i0)). split; [done|].
      split; [by intros [? ?]|].
      intros q Hc. destruct (Hq q Hc) as [-> ->]. cbn [negb andb].
      rewrite (bind_Ok _ _ _ _ _ En).
      unfold mbind at 1, M_bind at 1. unfold mret at 1, M_ret at 1.
      by rewrite (bind_Ok _ _ _ _ _ Ei).
  - injection E as <- <- <-. exists None. split; [done|]. split; [done|].
    intros q Hc. destruct (Hq q Hc) as [-> ->]. done.
Qed.

Lemma recordIndex_twice d p : recordIndex d (recordIndex d p) = recordIndex d p.
Proof.
  destruct d as [v|]; [|done]. unfold recordIndex, setAnnotation. simpl.
  by rewrite insert_insert_eq.
Qed.

Lemma recordIndex_Containers d p : Containers (recordIndex d p) = Containers p.
Proof. by destruct d. Qed.

(** X4. [Reserve] can be repeated: on the pod a first [Reserve] has left,
    a second one on the same node state returns the same status and leaves
    the pod as it is; and two pods with the same containers get the same
    status, whatever annotations they carry. *)
Theorem Reserve_idempotent (lister : string → NodeInfo + string) (p p' : Pod)
  (nodeName : string) (st : option Status) :
  run (Reserve lister p nodeName) = Ok (st, p') →
  run (Reserve lister p' nodeName) = Ok (st, p')
  ∧ ∀ q, Containers q = Containers p →
         ∃ q', run (Reserve lister q nodeName) = Ok (st, q').
Proof.
  intros E. unfold run in E.
  destruct (Reserve lister p nodeName []) as [[[st0 p0] h']|] eqn:Er; [|done].
  injection E as -> ->.
  destruct (Reserve_decision _ _ _ _ _ _ _ Er) as (d & -> & _ & Hq).
  split.
  - unfold run. rewrite (Hq _ (recordIndex_Containers d p)).
    by rewrite recordIndex_twice.
  - intros q Hc. exists (recordIndex d q). unfold run. by rewrite (Hq q Hc).
Qed.

Lemma Reserve_idempotent_witness :
  ∃ p', run (Reserve (λ _, inl scenarioMachine) podC "node") = Ok (None, p')
        ∧ run (Reserve (λ _, inl scenarioMachine) p' "node") = Ok (None, p').
Proof.
  eexists. split; [vm_compute; reflexivity|].
  apply (proj1 (Reserve_idempotent (λ _, inl scenarioMachine) podC _ "node" None
                  ltac:(vm_compute; reflexivity))).
Defined.

(** X5. Whatever [Reserve] returns, the pod keeps its containers and every
    annotation other than the index; when the status is not [nil] (an error,
    a conflict, no unit found) the pod is exactly as it was. *)
Theorem Reserve_touches_index_only (lister : string → NodeInfo + string)
  (p p' : Pod) (nodeName : string) (st : option Status) :
  run (Reserve lister p nodeName) = Ok (st, p') →
  Containers p' = Containers p
  ∧ (∀ key, key ≠ GPUIndexAnnotationKey →
            lookupAnnotation p' key = lookupAnnotation p key)
  ∧ (is_Some st → p' = p).
Proof.
  intros E. unfold run in E.
  destruct (Reserve lister p nodeName []) as [[[st0 p0] h']|] eqn:Er; [|done].
  injection E as -> ->.
  destruct (Reserve_decision _ _ _ _ _ _ _ Er) as (d & -> & Hd & _).
  split; [apply recordIndex_Containers|]. split.
  - intros key Hne. destruct d; [|done]. by apply lookupAnnotation_set_ne.
  - intros Hs. by rewrite (Hd Hs).
Qed.

Lemma Reserve_touches_index_only_witness :
  ∃ st p', run (Reserve (λ _, inl scenarioMachine) conflictPod "node") = Ok (st, p')
           ∧ is_Some st ∧ p' = conflictPod.
Proof.
  eexists _, _. split; [vm_compute; reflexivity|]. split; [by eexists|].
  refine (proj2 (proj2 (Reserve_touches_index_only (λ _, inl scenarioMachine)
                          conflictPod _ "node" _ ltac:(vm_compute; reflexivity))) _).
  by eexists.
Defined.

(** ** What the shared-memory fit finder returns *)

Lemma Cmp_antisym a b : resource.Cmp a b = - resource.Cmp b a.
Proof.
  unfold resource.Cmp. rewrite (Z.min_comm (resource.scale b)).
  rewrite (Z.compare_antisym (resource.value a * _)).
  by destruct (_ ?= _).
Qed.

Lemma sort_insert_length {A} (less : A → A → bool) x l :
  length (sort.insert less x l) = S (length l).
Proof.
  induction l as [|y l IH]; [done|]. simpl.
  destruct (less x y); simpl; by rewrite ?IH.
Qed.

(** [sort.Slice] keeps the number of elements. *)
Lemma sort_Slice_length {A} (less : A → A → bool) l :
  length (sort.Slice less l) = length l.
Proof.
  unfold sort.Slice. rewrite length_rev.
  assert (G : ∀ l acc,
            length (foldl (λ rev_prefix x, sort.insert less x rev_prefix) acc l)
            = (length acc + length l)%nat).
  { clear l. induction l as [|x l IH]; intros acc; simpl; [lia|].
    rewrite IH, sort_insert_length. lia. }
  by rewrite G.
Qed.

Lemma firstFit_sorted requested units : ∀ cap off,
  (∀ k u, units !! k = Some u → unitIndex u = off + Z.of_nat k) →
  StronglySorted Z.lt (firstFit requested cap units)
  ∧ Forall (λ i, off ≤ i) (firstFit requested cap units).
Proof.
  induction units as [|u us IH]; intros cap off Hidx.
  - split; constructor.
  - pose proof (Hidx 0%nat u eq_refl) as Hu. simpl.
    assert (Hidx' : ∀ k v, us !! k = Some v → unitIndex v = off + 1 + Z.of_nat k).
    { intros k v Hk. rewrite (Hidx (S k) v Hk). lia. }
    destruct (negb (exclusiveLock u) && _).
    + destruct (IH (resource.Sub cap (resource.Add (usedBytes u) requested))
                  (off + 1) Hidx') as [Hs Hb].
      split.
      * constructor; [done|]. eapply Forall_impl; [exact Hb|]. simpl; lia.
      * constructor; [lia|]. eapply Forall_impl; [exact Hb|]. simpl; lia.
    + destruct (IH cap (off + 1) Hidx') as [Hs Hb].
      split; [done|]. eapply Forall_impl; [exact Hb|]. simpl; lia.
Qed.

Lemma firstFit_unlocked requested units : ∀ cap i,
  i ∈ firstFit requested cap units →
  ∃ u, u ∈ units ∧ unitIndex u = i ∧ exclusiveLock u = false.
Proof.
  induction units as [|u us IH]; intros cap i Hi; simpl in Hi.
  - by apply elem_of_nil in Hi.
  - destruct (negb (exclusiveLock u)) eqn:Hl; simpl in Hi.
    + destruct (0 <=? _).
      * apply elem_of_cons in Hi as [->|Hi].
        -- exists u. split; [by left|]. split; [done|]. by apply negb_true_iff.
        -- destruct (IH _ _ Hi) as (w & Hw & ? & ?). exists w. split; [by right|done].
      * destruct (IH _ _ Hi) as (w & Hw & ? & ?). exists w. split; [by right|done].
    + destruct (IH _ _ Hi) as (w & Hw & ? & ?). exists w. split; [by right|done].
Qed.

(** X6. On the model [NewGPUNode] has built, [MemAssumeFitIndexes] returns
    without a panic; its list is empty exactly when the specification's fit
    has no candidate (no unit without exclusive lock whose used memory plus
    the request is within its capacity), and otherwise its first element is
    the lowest-index candidate. *)
Theorem MemAssumeFitIndexes_first_candidate (nodeInfo : NodeInfo) (h0 h : Heap)
  (n : gpuNode) (memLimit : Quantity) :
  NewGPUNode nodeInfo h0 = Ok (n, h) →
  ∃ indexes h',
    MemAssumeFitIndexes n memLimit h = Ok (indexes, h')
    ∧ head indexes
      = unitIndex <$> head (List.filter (Spec.candidate memLimit) (view h n))
    ∧ (indexes = [] ↔ Spec.sharedFit (view h n) memLimit = []).
Proof.
  intros En.
  destruct (NewGPUNode_Ok _ _ _ _ En) as (g & m & _ & _ & _ & _ & Hb & Hcap).
  destruct (MemAssumeFitIndexes_firstFit _ _ _ _ memLimit _ Hb Hcap) as (h' & E & _).
  set (cap := resource.NewQuantity (wrap64 (Z.quot m g))) in *.
  exists (firstFit memLimit cap (view h n)), h'. split; [done|].
  assert (Hfilter : List.filter (Spec.candidate memLimit) (view h n)
                    = List.filter
                        (λ u, negb (exclusiveLock u)
                              && (0 <=? resource.Cmp cap
                                          (resource.Add (usedBytes u) memLimit)))
                        (view h n)).
  { apply filter_ext_in. intros u Hu. unfold Spec.candidate. f_equal.
    assert (Hc : capacityBytes u = cap).
    { apply list_elem_of_In in Hu. unfold view in Hu.
      apply list_elem_of_fmap in Hu as (w & -> & Hw).
      apply list_elem_of_lookup in Hw as [k Hk]. simpl.
      destruct Hb as (_ & _ & Hk'). destruct (Hk' _ _ Hk) as (_ & -> & _).
      by apply lookup_total_Some. }
    rewrite Hc, (Cmp_antisym _ cap).
    destruct (resource.Cmp cap _) as [|c|c]; done. }
  assert (Hhead : head (firstFit memLimit cap (view h n))
                  = unitIndex <$> head (List.filter (Spec.candidate memLimit)
                                          (view h n))).
  { rewrite Hfilter. apply firstFit_head. }
  split; [done|].
  unfold Spec.sharedFit. split.
  - intros Hnil. rewrite Hnil in Hhead. simpl in Hhead.
    destruct (List.filter (Spec.candidate memLimit) (view h n)); done.
  - intros Hnil. apply fmap_nil_inv in Hnil.
    assert (Hlen : length (List.filter (Spec.candidate memLimit) (view h n)) = 0%nat).
    { rewrite <- (sort_Slice_length (Spec.tighter memLimit)), Hnil. done. }
    destruct (List.filter (Spec.candidate memLimit) (view h n)); [|done].
    simpl in Hhead. by destruct (firstFit memLimit cap (view h n)).
Qed.

Lemma MemAssumeFitIndexes_first_candidate_witness :
  ∃ n h indexes h',
    NewGPUNode tightMachine [] = Ok (n, h)
    ∧ MemAssumeFitIndexes n (resource.NewQuantity 2) h = Ok (indexes, h')
    ∧ head indexes = Some 0.
Proof.
  eexists _, _.
  destruct (MemAssumeFitIndexes_first_candidate tightMachine [] _ _
              (resource.NewQuantity 2) ltac:(vm_compute; reflexivity))
    as (indexes & h' & E & Hhead & _).
  exists indexes, h'. split; [vm_compute; reflexivity|]. split; [exact E|].
  rewrite Hhead. vm_compute. reflexivity.
Defined.

(** X7. On the model [NewGPUNode] has built, the list [MemAssumeFitIndexes]
    returns is in strictly ascending index order and names only units without
    exclusive lock; the call leaves every lock as it was and every unit's
    used memory raised by the request. *)
Theorem MemAssumeFitIndexes_ascending (nodeInfo : NodeInfo) (h0 h : Heap)
  (n : gpuNode) (memLimit : Quantity) :
  NewGPUNode nodeInfo h0 = Ok (n, h) →
  ∃ indexes h',
    MemAssumeFitIndexes n memLimit h = Ok (indexes, h')
    ∧ StronglySorted Z.lt indexes
    ∧ (∀ i, i ∈ indexes →
            ∃ u, u ∈ view h n ∧ unitIndex u = i ∧ exclusiveLock u = false)
    ∧ exclusiveLock <$> view h' n = exclusiveLock <$> view h n
    ∧ usedBytes <$> view h' n
      = (λ used, resource.Add used memLimit) <$> (usedBytes <$> view h n).
Proof.
  intros En.
  destruct (NewGPUNode_Ok _ _ _ _ En) as (g & m & _ & _ & _ & _ & Hb & Hcap).
  destruct (MemAssumeFitIndexes_firstFit _ _ _ _ memLimit _ Hb Hcap) as (h' & E & Hused).
  eexists _, h'. split; [exact E|]. split; [|split; [|split; [|done]]].
  - apply (firstFit_sorted memLimit (view h n) _ 0).
    intros k u Hu. unfold view in Hu. rewrite list_lookup_fmap in Hu.
    destruct (gpus n !! k) as [w|] eqn:Hw; [|done]. injection Hu as <-. simpl.
    destruct Hb as (_ & _ & Hk). destruct (Hk _ _ Hw) as (-> & _). lia.
  - intros i Hi. by eapply firstFit_unlocked.
  - unfold view. by rewrite <- !list_fmap_compose.
Qed.

Lemma MemAssumeFitIndexes_ascending_witness :
  ∃ n h indexes h',
    NewGPUNode roomyMachine [] = Ok (n, h)
    ∧ MemAssumeFitIndexes n (resource.NewQuantity 1) h = Ok (indexes, h')
    ∧ StronglySorted Z.lt indexes
    ∧ usedBytes <$> view h' n = [resource.NewQuantity 1; resource.NewQuantity 6].
Proof.
  eexists _, _.
  destruct (MemAssumeFitIndexes_ascending roomyMachine [] _ _
              (resource.NewQuantity 1) ltac:(vm_compute; reflexivity))
    as (indexes & h' & E & Hs & _ & _ & Hu).
  exists indexes, h'. split; [vm_compute; reflexivity|]. split; [exact E|].
  split; [exact Hs|]. rewrite Hu. vm_compute. reflexivity.
Defined.

(** ** The scores *)

Lemma gpuScore_loop h gpus cnt :
  (∀ u, u ∈ gpus → is_Some (h !! usedMemory u)) →
  foldM gpuScoreStep cnt gpus h
  = Ok (cnt + Z.of_nat (length (List.filter idle (viewGPU h <$> gpus))), h).
Proof.
  revert cnt. induction gpus as [|u gpus IH]; intros cnt Hall.
  - simpl. by rewrite Z.add_0_r.
  - destruct (Hall u) as [q Hq]; [by left|].
    assert (Hrest : ∀ w, w ∈ gpus → is_Some (h !! usedMemory w))
      by (intros; apply Hall; by right).
    rewrite fmap_cons. simpl foldM. simpl List.filter.
    unfold idle at 1. simpl. rewrite (lookup_total_Some _ _ _ Hq).
    unfold mbind at 1, M_bind at 1, gpuScoreStep.
    destruct (monopoly u); simpl.
    + unfold mret, M_ret. by rewrite IH.
    + unfold mbind, M_bind, load. rewrite Hq.
      destruct (resource.IsZero q); unfold mret, M_ret; rewrite IH by done;
        [|done].
      simpl length. do 2 f_equal. lia.
Qed.

(** X8. On every model whose slots carry their position as index (every
    model [NewGPUNode] returns), [GPUScore] is the number of indexes
    [GPUAssumeFitIndexes] returns, at most the number of units, and neither
    call writes the heap. *)
Theorem GPUScore_counts_fits (h : Heap) (n : gpuNode) (gpuLimit : Quantity) :
  indexed h (gpus n) →
  ∃ indexes,
    GPUAssumeFitIndexes n gpuLimit h = Ok (indexes, h)
    ∧ GPUScore n h = Ok (Z.of_nat (length indexes), h)
    ∧ (length indexes ≤ length (gpus n))%nat.
Proof.
  intros Hidx.
  assert (Hall : ∀ u, u ∈ gpus n → is_Some (h !! usedMemory u)).
  { intros u Hu. apply list_elem_of_lookup in Hu as [k Hk]. by apply (Hidx k u). }
  exists (unitIndex <$> List.filter idle (view h n)). split; [|split].
  - unfold GPUAssumeFitIndexes. by rewrite gpuFit_loop.
  - unfold GPUScore. rewrite gpuScore_loop by done. by rewrite length_fmap.
  - rewrite length_fmap. etransitivity; [apply filter_length_le|].
    unfold view. by rewrite length_fmap.
Qed.

Lemma GPUScore_counts_fits_witness :
  GPUScore sampleNode sampleHeap = Ok (1, sampleHeap).
Proof.
  destruct (GPUScore_counts_fits sampleHeap sampleNode (resource.NewQuantity 1)
              sampleNode_indexed) as (indexes & Ef & Es & _).
  rewrite Es. vm_compute in Ef. injection Ef as <-. reflexivity.
Defined.

Lemma Add_integer a b :
  resource.Add (resource.mkQuantity a 0) (resource.mkQuantity b 0)
  = resource.mkQuantity (a + b) 0.
Proof.
  unfold resource.Add. simpl.
  destruct (Z.eqb_spec b 0) as [->|_]; [f_equal; lia|].
  destruct (Z.eqb_spec a 0) as [->|_]; [f_equal; lia|]. done.
Qed.








(** ** [Filter] *)

Lemma built_allocated mem base (h : Heap) gpus :
  built mem base h gpus → allocated h gpus.
Proof.
  intros (Hm & Hlen & Hk) u Hu. apply list_elem_of_lookup in Hu as [k Hu].
  destruct (Hk _ _ Hu) as (_ & -> & ->). apply lookup_lt_Some in Hu.
  split; apply lookup_lt_is_Some_2; lia.
Qed.

(** What a [nil] status of [Filter] means for a workload that declares the
    shared resource only. *)
Lemma Filter_shared_pass p nodeInfo (h h' : Heap) :
  ¬ declared GPUResourceName p → declared MemResourceName p →
  Filter p nodeInfo h = Ok (None, h') →
  ∃ no h1 i0 indexes,
    NewGPUNode nodeInfo h = Ok (no, h1)
    ∧ MemAssumeFitIndexes no (podResourceLimit MemResourceName p).1 h1
      = Ok (i0 :: indexes, h').
Proof.
  intros Hg Hm E.
  apply podResourceLimit_not_exist in Hg. apply podResourceLimit_exist in Hm.
  unfold Filter in E.
  destruct (podResourceLimit GPUResourceName p) as [gl ge],
           (podResourceLimit MemResourceName p) as [ml me].
  simpl in Hg, Hm. subst ge me. cbn [negb andb fst snd] in *.
  destruct (Allocatable nodeInfo !! GPUResourceName); [|done].
  destruct (Allocatable nodeInfo !! MemResourceName); [|done].
  destruct (0 <? _); [done|]. destruct (0 <? _); [done|].
  apply bind_inv_Ok in E as (no & h1 & En & E).
  apply bind_inv_Ok in E as (indexes & h2 & Ei & E).
  destruct indexes as [|i0 indexes]; [done|].
  injection E as <-. by exists no, h1, i0, indexes.
Qed.

(** X10. When [Filter] passes a workload that declares the shared resource
    only, [Reserve] on the same node state succeeds: it returns a [nil]
    status and records a non-negative unit index. *)
Theorem Filter_pass_Reserve_shared (lister : string → NodeInfo + string)
  (p : Pod) (nodeName : string) (nodeInfo : NodeInfo) :
  lister nodeName = inl nodeInfo →
  ¬ declared GPUResourceName p → declared MemResourceName p →
  run (Filter p nodeInfo) = Ok None →
  ∃ i, 0 ≤ i
       ∧ run (Reserve lister p nodeName)
         = Ok (None, setAnnotation p GPUIndexAnnotationKey (strconv.Itoa i)).
Proof.
  intros Hl Hg Hm E. unfold run in E.
  destruct (Filter p nodeInfo []) as [[st h']|] eqn:Ef; [|done].
  injection E as ->.
  destruct (Filter_shared_pass _ _ _ _ Hg Hm Ef) as (no & h1 & i0 & idx & En & Ei).
  exists i0. split.
  - destruct (NewGPUNode_Ok _ _ _ _ En) as (g & m & _ & _ & _ & _ & Hb & Hcap).
    destruct (MemAssumeFitIndexes_firstFit _ _ _ _
                (podResourceLimit MemResourceName p).1 _ Hb Hcap) as (h2 & Ei' & _).
    rewrite Ei in Ei'. injection Ei' as Hfit _.
    destruct (firstFit_sorted (podResourceLimit MemResourceName p).1 (view h1 no)
                (resource.NewQuantity (wrap64 (Z.quot m g))) 0) as [_ Hge].
    { intros k u Hu. unfold view in Hu. rewrite list_lookup_fmap in Hu.
      destruct (gpus no !! k) as [w|] eqn:Hw; [|done]. injection Hu as <-. simpl.
      destruct Hb as (_ & _ & Hk). destruct (Hk _ _ Hw) as (-> & _). lia. }
    rewrite <- Hfit in Hge. by apply Forall_cons in Hge as [? _].
  - unfold run.
    by rewrite (proj2 (Reserve_records_head _ _ _ _ _ _ _ Hl En) Hg Hm _ _ Ei).
Qed.

Lemma Filter_pass_Reserve_shared_witness :
  ∃ i, 0 ≤ i
       ∧ run (Reserve (λ _, inl scenarioMachine) podD "node")
         = Ok (None, setAnnotation podD GPUIndexAnnotationKey (strconv.Itoa i)).
Proof.
  apply (Filter_pass_Reserve_shared (λ _, inl scenarioMachine) podD "node"
           scenarioMachine eq_refl).
  - intros (c & Hc & Hs). apply list_elem_of_singleton in Hc as ->.
    vm_compute in Hs. by destruct Hs.
  - eexists. split; [by left|]. vm_compute. by eexists.
  - vm_compute. reflexivity.
Defined.

(** X11. For a workload that declares the exclusive resource only, [Filter]
    never consults a fit finder: it passes whenever the node reports both
    resources, the aggregate limits fit and the model can be built, whether
    or not a unit is idle.  On such a node without an idle unit, [Reserve]
    then returns [Unschedulable]. *)
Theorem Filter_exclusive_skips_fit (lister : string → NodeInfo + string)
  (p : Pod) (nodeName : string) (nodeInfo : NodeInfo)
  (gpuAllocatable memAllocatable : Quantity) (units : list Unit) :
  lister nodeName = inl nodeInfo →
  declared GPUResourceName p → ¬ declared MemResourceName p →
  Allocatable nodeInfo !! GPUResourceName = Some gpuAllocatable →
  Allocatable nodeInfo !! MemResourceName = Some memAllocatable →
  resource.Cmp (resource.Add (nodeResourceLimitSum GPUResourceName nodeInfo)
                  (podResourceLimit GPUResourceName p).1) gpuAllocatable ≤ 0 →
  resource.Cmp (resource.Add (nodeResourceLimitSum MemResourceName nodeInfo)
                  (podResourceLimit MemResourceName p).1) memAllocatable ≤ 0 →
  rebuild nodeInfo = Ok units →
  run (Filter p nodeInfo) = Ok None
  ∧ (List.filter idle units = [] →
     run (Reserve lister p nodeName)
     = Ok (Some (NewStatus Unschedulable
                   ("allocate index fail " +:+ GPUResourceName)), p)).
Proof.
  intros Hl Hg Hm Hga Hma Hcg Hcm Hr. split.
  - apply rebuild_Ok in Hr as (n & h & En & _).
    apply podResourceLimit_exist in Hg. apply podResourceLimit_not_exist in Hm.
    unfold run, Filter.
    destruct (podResourceLimit GPUResourceName p) as [gl ge],
             (podResourceLimit MemResourceName p) as [ml me].
    simpl in Hg, Hm, Hcg, Hcm. subst ge me. cbn [negb andb].
    rewrite Hga, Hma.
    destruct (Z.ltb_spec 0 (resource.Cmp (resource.Add
                (nodeResourceLimitSum GPUResourceName nodeInfo) gl) gpuAllocatable));
      [lia|].
    destruct (Z.ltb_spec 0 (resource.Cmp (resource.Add
                (nodeResourceLimitSum MemResourceName nodeInfo) ml) memAllocatable));
      [lia|].
    by rewrite (bind_Ok _ _ _ _ _ En).
  - intros Hnone. rewrite (Reserve_exclusive _ _ _ _ _ Hl Hr Hg Hm). by rewrite Hnone.
Qed.

Lemma Filter_exclusive_skips_fit_witness :
  run (Filter podC busyMachine) = Ok None
  ∧ run (Reserve (λ _, inl busyMachine) podC "node")
    = Ok (Some (NewStatus Unschedulable "allocate index fail nvidia.flex.com/gpu"),
          podC).
Proof.
  assert (Hg : declared GPUResourceName podC).
  { eexists. split; [by left|]. vm_compute. by eexists. }
  assert (Hm : ¬ declared MemResourceName podC).
  { intros (c & Hc & Hs). apply list_elem_of_singleton in Hc as ->.
    vm_compute in Hs. by destruct Hs. }
  destruct (Filter_exclusive_skips_fit (λ _, inl busyMachine) podC "node" busyMachine
              (resource.NewQuantity 1) (resource.NewQuantity 8)
              [mkUnit 0 false (resource.NewQuantity 8) (resource.NewQuantity 1)]
              eq_refl Hg Hm ltac:(vm_compute; reflexivity)
              ltac:(vm_compute; reflexivity) ltac:(by vm_compute)
              ltac:(by vm_compute) ltac:(vm_compute; reflexivity)) as [Hf Hres].
  split; [exact Hf|]. apply Hres. reflexivity.
Defined.

(** X12. A workload that declares exactly one of the two resources is
    rejected by [Filter] as [UnschedulableAndUnresolvable] on every node
    that does not report both resources, whatever pods the node holds; the
    model is not built and nothing can panic. *)
Theorem Filter_unknown_resource (p : Pod) (nodeInfo : NodeInfo) (h : Heap) :
  declaresOne p →
  Allocatable nodeInfo !! GPUResourceName = None
  ∨ Allocatable nodeInfo !! MemResourceName = None →
  Filter p nodeInfo h
  = Ok (Some (NewStatus UnschedulableAndUnresolvable "unknown resource type"), h).
Proof.
  intros Hone Hmiss. unfold Filter.
  assert (Hflags : (podResourceLimit GPUResourceName p).2
                   = negb (podResourceLimit MemResourceName p).2).
  { destruct Hone as [[Hg Hm]|[Hg Hm]].
    - apply podResourceLimit_exist in Hg. apply podResourceLimit_not_exist in Hm.
      by rewrite Hg, Hm.
    - apply podResourceLimit_not_exist in Hg. apply podResourceLimit_exist in Hm.
      by rewrite Hg, Hm. }
  destruct (podResourceLimit GPUResourceName p) as [gl ge],
           (podResourceLimit MemResourceName p) as [ml me].
  simpl in Hflags. subst ge.
  destruct me; cbn [negb andb];
    (destruct (Allocatable nodeInfo !! GPUResourceName); [|done];
     destruct Hmiss as [?|Hmem]; [done|]; by rewrite Hmem).
Qed.

Lemma Filter_unknown_resource_witness :
  Filter podC (mkNodeInfo {[ MemResourceName := resource.NewQuantity 8 ]}
                 [limitPod MemResourceName 1 (Some "7")]) []
  = Ok (Some (NewStatus UnschedulableAndUnresolvable "unknown resource type"), []).
Proof.
  apply Filter_unknown_resource.
  - left. split.
    + eexists. split; [by left|]. vm_compute. by eexists.
    + intros (c & Hc & Hs). apply list_elem_of_singleton in Hc as ->.
      vm_compute in Hs. by destruct Hs.
  - left. vm_compute. reflexivity.
Defined.

Lemma podResourceLimit_value name pod :
  integerLimits name pod →
  (podResourceLimit name pod).1 = resource.NewQuantity (podLimitValue name pod).
Proof.
  unfold integerLimits, podResourceLimit, podLimitValue, resource.NewQuantity.
  assert (G : ∀ cs s b,
    (∀ c q, c ∈ cs → Limits c !! name = Some q → resource.scale q = 0) →
    (foldl (λ acc c, match Limits c !! name with
                     | Some q => (resource.Add acc.1 q, true)
                     | None => acc
                     end) (resource.mkQuantity s 0, b) cs).1
    = resource.mkQuantity (s + foldr (λ c t, limitValue name c + t) 0 cs) 0).
  { induction cs as [|c cs IH]; intros s b Hint; simpl.
    - f_equal. lia.
    - unfold limitValue at 1.
      destruct (Limits c !! name) as [[v sc]|] eqn:E; simpl.
      + assert (sc = 0) as -> by (apply (Hint c _ ltac:(by left) E)).
        rewrite Add_integer, IH.
        * f_equal. lia.
        * intros c' q Hc'. apply Hint. by right.
      + rewrite IH; [done|]. intros c' q Hc'. apply Hint. by right. }
  intros Hint. by rewrite G.
Qed.

Lemma nodeResourceLimitSum_value name nodeInfo :
  Forall (integerLimits name) (Pods nodeInfo) →
  nodeResourceLimitSum name nodeInfo
  = resource.NewQuantity (nodeLimitValue name nodeInfo).
Proof.
  unfold nodeResourceLimitSum, nodeLimitValue, resource.NewQuantity.
  assert (G : ∀ pods s, Forall (integerLimits name) pods →
    foldl (λ sum pod, resource.Add sum (podResourceLimit name pod).1)
          (resource.mkQuantity s 0) pods
    = resource.mkQuantity (s + foldr (λ pod t, podLimitValue name pod + t) 0 pods) 0).
  { induction pods as [|pod pods IH]; intros s Hint; simpl.
    - f_equal. lia.
    - apply Forall_cons in Hint as [Hp Hint].
      rewrite (podResourceLimit_value _ _ Hp). unfold resource.NewQuantity.
      rewrite Add_integer, IH by done. f_equal. lia. }
  intros Hint. by rewrite G.
Qed.

Lemma Cmp_integer a b :
  resource.Cmp (resource.mkQuantity a 0) (resource.mkQuantity b 0)
  = match a ?= b with Lt => -1 | Eq => 0 | Gt => 1 end.
Proof. unfold resource.Cmp. simpl. by rewrite !Z.mul_1_r. Qed.

(** X13. [Filter] guards the node's totals: for either resource with an
    integer allocatable count and integer limits, when the limits of the
    placed pods plus the limit of the workload exceed the count, a workload
    that declares exactly one resource is [Unschedulable]; the model is not
    built, so no annotation of a placed pod can make the call panic. *)
Theorem Filter_over_capacity (name : string) (p : Pod) (nodeInfo : NodeInfo)
  (h : Heap) (cap : Z) :
  name = GPUResourceName ∨ name = MemResourceName →
  declaresOne p →
  is_Some (Allocatable nodeInfo !! GPUResourceName) →
  is_Some (Allocatable nodeInfo !! MemResourceName) →
  Allocatable nodeInfo !! name = Some (resource.NewQuantity cap) →
  integerLimits name p → Forall (integerLimits name) (Pods nodeInfo) →
  cap < nodeLimitValue name nodeInfo + podLimitValue name p →
  ∃ msg, Filter p nodeInfo h = Ok (Some (NewStatus Unschedulable msg), h).
Proof.
  intros Hname Hone [ga Hga] [ma Hma] Hcap Hp Hpods Hlt.
  assert (Hover : (0 <? resource.Cmp (resource.Add (nodeResourceLimitSum name nodeInfo)
                                        (podResourceLimit name p).1)
                                     (resource.NewQuantity cap)) = true).
  { rewrite (podResourceLimit_value _ _ Hp), (nodeResourceLimitSum_value _ _ Hpods).
    unfold resource.NewQuantity. rewrite Add_integer, Cmp_integer.
    by destruct (Z.compare_spec (nodeLimitValue name nodeInfo + podLimitValue name p) cap);
      try lia. }
  assert (Hflags : (podResourceLimit GPUResourceName p).2
                   = negb (podResourceLimit MemResourceName p).2).
  { destruct Hone as [[Hg Hm]|[Hg Hm]].
    - apply podResourceLimit_exist in Hg. apply podResourceLimit_not_exist in Hm.
      by rewrite Hg, Hm.
    - apply podResourceLimit_not_exist in Hg. apply podResourceLimit_exist in Hm.
      by rewrite Hg, Hm. }
  unfold Filter.
  destruct (podResourceLimit GPUResourceName p) as [gl ge] eqn:Egl,
           (podResourceLimit MemResourceName p) as [ml me] eqn:Eml.
  simpl in Hflags. subst ge.
  rewrite Hga, Hma.
  destruct Hname as [-> | ->].
  - rewrite Hga in Hcap. injection Hcap as ->. rewrite Egl in Hover. simpl in Hover.
    destruct me; cbn [negb andb]; rewrite Hover; by eexists.
  - rewrite Hma in Hcap. injection Hcap as ->. rewrite Eml in Hover. simpl in Hover.
    destruct me; cbn [negb andb]; rewrite Hover;
      destruct (0 <? resource.Cmp _ ga); by eexists.
Qed.

Lemma Filter_over_capacity_witness :
  ∃ msg, Filter podA (machine 2 8 [limitPod MemResourceName 5 (Some "9")]) []
         = Ok (Some (NewStatus Unschedulable msg), []).
Proof.
  apply (Filter_over_capacity MemResourceName podA
           (machine 2 8 [limitPod MemResourceName 5 (Some "9")]) [] 8).
  - by right.
  - right. split.
    + intros (c & Hc & Hs). apply list_elem_of_singleton in Hc as ->.
      vm_compute in Hs. by destruct Hs.
    + eexists. split; [by left|]. vm_compute. by eexists.
  - vm_compute. by eexists.
  - vm_compute. by eexists.
  - vm_compute. reflexivity.
  - intros c q Hc Hq. apply list_elem_of_singleton in Hc as ->.
    vm_compute in Hq. by injection Hq as <-.
  - apply Forall_cons_2; [|apply Forall_nil_2].
    intros c q Hc Hq. apply list_elem_of_singleton in Hc as ->.
    vm_compute in Hq. by injection Hq as <-.
  - vm_compute. reflexivity.
Defined.

(** ** The earlier version of the plugin *)

Lemma newUsage_newGPUs n mem : ∀ i (h : Heap),
  Legacy.newUsage n i h = (gs ← newGPUs n i mem; mret (usageOf <$> gs)) h.
Proof.
  induction n as [|n IH]; intros i h; [done|].
  simpl. unfold mbind, M_bind, new. simpl.
  specialize (IH (i + 1) (h ++ [resource.NewQuantity 0])).
  unfold mbind, M_bind in IH. rewrite IH.
  destruct (newGPUs n (i + 1) mem (h ++ [resource.NewQuantity 0])) as [[gs h']|msg];
    [|done].
  done.
Qed.

Lemma at_index_fmap {A B} (f : A → B) (l : list A) i (h : Heap) :
  at_index (f <$> l) i h = (x ← at_index l i; mret (f x)) h.
Proof.
  unfold at_index, mbind, M_bind. destruct (0 <=? i).
  - rewrite list_lookup_fmap. by destruct (l !! Z.to_nat i).
  - done.
Qed.

Lemma placePod_usageOf gpus pod (h : Heap) :
  Legacy.placePod (usageOf <$> gpus) pod h
  = (gs ← placePod gpus pod; mret (usageOf <$> gs)) h.
Proof.
  unfold Legacy.placePod, placePod.
  change (Legacy.podResourceLimitSum GPUResourceName pod)
    with (podResourceLimit GPUResourceName pod).
  change (Legacy.podResourceLimitSum MemResourceName pod)
    with (podResourceLimit MemResourceName pod).
  destruct (podResourceLimit GPUResourceName pod) as [gl ge],
           (podResourceLimit MemResourceName pod) as [ml me].
  destruct (negb ge && negb me); [done|].
  destruct (lookupAnnotation pod GPUIndexAnnotationKey) as [val has].
  destruct (strconv.Atoi val) as [i|]; [|done].
  destruct (negb has); [done|].
  assert (Hat : ∀ l, at_index (usageOf <$> l) i h
                     = match at_index l i h with
                       | Ok (x, h') => Ok (usageOf x, h')
                       | Panic msg => Panic msg
                       end).
  { intros l. rewrite at_index_fmap. unfold mbind, M_bind.
    by destruct (at_index l i h) as [[x h']|msg]. }
  assert (Hh : ∀ (l : list gpu) x h', at_index l i h = Ok (x, h') → h' = h).
  { intros l x h'. unfold at_index.
    destruct (if 0 <=? i then l !! Z.to_nat i else None); [|done].
    by intros [= _ <-]. }
  destruct ge, me; unfold mbind, M_bind; simpl.
  - rewrite Hat. destruct (at_index gpus i h) as [[u h1]|msg] eqn:E; [|done].
    apply Hh in E as ->. unfold mret, M_ret.
    change (<[Z.to_nat i := Legacy.setMonopoly (usageOf u)]> (usageOf <$> gpus))
      with (<[Z.to_nat i := usageOf (setMonopoly u)]> (usageOf <$> gpus)).
    rewrite <- list_fmap_insert. rewrite Hat.
    destruct (at_index (<[Z.to_nat i := setMonopoly u]> gpus) i h)
      as [[u2 h2]|msg]; [|done].
    simpl. by destruct (Quantity_Add (usedMemory u2) ml h2) as [[[] h3]|msg].
  - rewrite Hat. destruct (at_index gpus i h) as [[u h1]|msg] eqn:E; [|done].
    apply Hh in E as ->. unfold mret, M_ret.
    change (<[Z.to_nat i := Legacy.setMonopoly (usageOf u)]> (usageOf <$> gpus))
      with (<[Z.to_nat i := usageOf (setMonopoly u)]> (usageOf <$> gpus)).
    by rewrite <- list_fmap_insert.
  - unfold mret, M_ret. rewrite Hat.
    destruct (at_index gpus i h) as [[u h1]|msg]; [|done].
    simpl. by destruct (Quantity_Add (usedMemory u) ml h1) as [[[] h3]|msg].
  - done.
Qed.

Lemma foldM_placePod_usageOf pods : ∀ gpus (h : Heap),
  foldM Legacy.placePod (usageOf <$> gpus) pods h
  = (gs ← foldM placePod gpus pods; mret (usageOf <$> gs)) h.
Proof.
  induction pods as [|pod pods IH]; intros gpus h; [done|].
  simpl. unfold mbind, M_bind in *. rewrite placePod_usageOf.
  unfold mbind, M_bind.
  destruct (placePod gpus pod h) as [[gs h']|msg]; [|done].
  simpl. unfold mret at 1, M_ret at 1. apply IH.
Qed.

Lemma resourceLimitSumIndexArray_usageOf cnt mem pods (h : Heap) :
  Legacy.resourceLimitSumIndexArray cnt pods h
  = match constructGPUs cnt mem pods h with
    | Ok (gpus, h') => Ok (usageOf <$> gpus, h')
    | Panic msg => Panic msg
    end.
Proof.
  unfold Legacy.resourceLimitSumIndexArray, constructGPUs.
  destruct ((cnt <? 0) || (maxSliceLen <? cnt)); [done|].
  pose proof (newUsage_newGPUs (Z.to_nat cnt) mem 0 h) as Hn.
  pose proof (foldM_placePod_usageOf pods) as Hf.
  unfold mbind, M_bind in *. rewrite Hn.
  unfold mbind, M_bind.
  destruct (newGPUs (Z.to_nat cnt) 0 mem h) as [[gs h']|msg]; [|done].
  simpl. apply Hf.
Qed.

(** X14. [resourceLimitSumIndexArray], the accounting of the earlier version,
    is [constructGPUs] without the capacity pointer: started on the same
    heap, the two allocate the same cells, charge the same pods to the same
    slots, and panic on the same pods. *)
Theorem resourceLimitSumIndexArray_constructGPUs (cnt : Z) (memEachGPU : loc)
  (pods : list Pod) (h : Heap) :
  Legacy.resourceLimitSumIndexArray cnt pods h
  = (gpus ← constructGPUs cnt memEachGPU pods; mret (usageOf <$> gpus)) h.
Proof.
  rewrite (resourceLimitSumIndexArray_usageOf cnt memEachGPU).
  unfold mbind, M_bind.
  by destruct (constructGPUs cnt memEachGPU pods h) as [[gpus h']|msg].
Qed.

Lemma roomy_ext requested cap us us' :
  Forall2 (λ a b, exclusiveLock a = exclusiveLock b ∧ usedBytes a = usedBytes b)
    us us' →
  length (List.filter (roomy requested cap) us)
  = length (List.filter (roomy requested cap) us').
Proof.
  induction 1 as [|a b us us' [Hl Hu] _ IH]; [done|].
  cbn [List.filter].
  assert (roomy requested cap a = roomy requested cap b) as ->
    by (unfold roomy; by rewrite Hl, Hu).
  destruct (roomy requested cap b); simpl; by rewrite IH.
Qed.

(** The counting loop of the earlier [Filter] on units with cells of their
    own: it counts the roomy units. *)
Lemma legacyFit_loop requested mem us : ∀ (h : Heap) cap fit,
  (∀ u, u ∈ us → is_Some (h !! usedMemory u)) →
  NoDup (usedMemory <$> us) → mem ∉ (usedMemory <$> us) →
  h !! mem = Some cap →
  ∃ h', foldM (Legacy.fitStep mem requested) fit (usageOf <$> us) h
        = Ok (fit + Z.of_nat (length (List.filter (roomy requested cap)
                                        (viewGPU h <$> us))), h').
Proof.
  induction us as [|u us IH]; intros h cap fit Hus Hnd Hmem Hcap.
  - exists h. simpl. by rewrite Z.add_0_r.
  - destruct (Hus u) as [v Hv]; [by left|].
    rewrite fmap_cons in Hnd, Hmem. apply NoDup_cons in Hnd as [Hnotin Hnd].
    apply not_elem_of_cons in Hmem as [Hne Hmem].
    set (a := resource.Add v requested).
    set (h1 := <[usedMemory u := a]> h).
    assert (Hlt : (usedMemory u < length h)%nat) by (by eapply lookup_lt_Some).
    assert (Hv1 : h1 !! usedMemory u = Some a)
      by (by apply list_lookup_insert_eq).
    assert (Hcap1 : h1 !! mem = Some cap)
      by (unfold h1; by rewrite list_lookup_insert_ne).
    assert (Hstep : Legacy.fitStep mem requested fit (usageOf u) h
                    = Ok (if negb (monopoly u) && (0 <=? resource.Cmp cap a)
                          then fit + 1 else fit, h1)).
    { unfold Legacy.fitStep. simpl.
      rewrite (bind_Ok _ _ _ _ _ (Quantity_Add_Ok _ _ _ _ Hv)). fold a. fold h1.
      destruct (monopoly u); [done|]. simpl.
      rewrite (bind_Ok _ _ _ _ _ (load_Ok _ _ _ Hcap1)).
      rewrite (bind_Ok _ _ _ _ _ (load_Ok _ _ _ Hv1)).
      by destruct (0 <=? resource.Cmp cap a). }
    rewrite !fmap_cons. simpl foldM. unfold mbind at 1, M_bind at 1. rewrite Hstep.
    assert (Hview : Forall2 (λ a b, exclusiveLock a = exclusiveLock b
                                    ∧ usedBytes a = usedBytes b)
                      (viewGPU h1 <$> us) (viewGPU h <$> us)).
    { apply Forall2_fmap, Forall_Forall2_diag, Forall_forall.
      intros w Hw. simpl. split; [done|].
      rewrite !list_lookup_total_alt. unfold h1.
      rewrite list_lookup_insert_ne; [done|].
      intros E. apply Hnotin. rewrite E. by apply list_elem_of_fmap_2. }
    destruct (IH h1 cap (if negb (monopoly u) && (0 <=? resource.Cmp cap a)
                         then fit + 1 else fit)) as (h' & E); try done.
    { intros w Hw. destruct (Hus w) as [x Hx]; [by right|].
      apply lookup_lt_is_Some_2. unfold h1. rewrite length_insert.
      by eapply lookup_lt_Some. }
    exists h'. rewrite E, (roomy_ext _ _ _ _ Hview). do 2 f_equal.
    simpl List.filter. unfold roomy at 2.
    cbn [viewGPU usedBytes exclusiveLock].
    rewrite (lookup_total_Some _ _ _ Hv). fold a.
    destruct (negb (monopoly u) && (0 <=? resource.Cmp cap a)); simpl length; lia.
Qed.

Lemma firstFit_nil requested cap units :
  firstFit requested cap units = []
  ↔ List.filter (roomy requested cap) units = [].
Proof.
  pose proof (firstFit_head requested cap units) as H.
  fold (roomy requested cap) in H.
  change (λ u, negb (exclusiveLock u)
               && (0 <=? resource.Cmp cap (resource.Add (usedBytes u) requested)))
    with (roomy requested cap) in H.
  destruct (firstFit requested cap units), (List.filter (roomy requested cap) units);
    simpl in H; try done.
Qed.

(** [NewGPUNode] once both counts are read: the capacity cell, then
    [constructGPUs]. *)
Lemma NewGPUNode_construct nodeInfo ga ma gpuCnt memCnt (h : Heap) :
  Allocatable nodeInfo !! GPUResourceName = Some ga →
  Allocatable nodeInfo !! MemResourceName = Some ma →
  resource.AsInt64 ga = Some gpuCnt → resource.AsInt64 ma = Some memCnt →
  gpuCnt ≠ 0 →
  NewGPUNode nodeInfo h
  = match constructGPUs gpuCnt (length h) (Pods nodeInfo)
            (h ++ [resource.NewQuantity (wrap64 (Z.quot memCnt gpuCnt))]) with
    | Ok (gpus, h') => Ok (mkGpuNode ga ma gpus, h')
    | Panic msg => Panic msg
    end.
Proof.
  intros Hga Hma Hg Hm Hnz. unfold NewGPUNode. rewrite Hga, Hma. simpl.
  rewrite Hg, Hm. destruct (Z.eqb_spec gpuCnt 0) as [|_]; [done|].
  unfold mbind, M_bind, new. simpl.
  by destruct (constructGPUs _ _ _ _) as [[gpus h']|msg].
Qed.

(** The two versions of [Filter] on a workload that does not declare the
    exclusive resource, started on the same heap. *)
Lemma Filter_Legacy_core p nodeInfo (h : Heap) :
  ¬ declared GPUResourceName p →
  is_Some (Allocatable nodeInfo !! MemResourceName) →
  match Legacy.Filter p nodeInfo h with
  | Ok (r, _) => ∃ r' h', Filter p nodeInfo h = Ok (r', h')
                          ∧ code <$> r' = code <$> r
  | Panic _ => ∀ h', Filter p nodeInfo h ≠ Ok (None, h')
  end.
Proof.
  intros Hg [ma Hma]. apply podResourceLimit_not_exist in Hg.
  unfold Legacy.Filter, Filter.
  change (Legacy.podResourceLimitSum GPUResourceName p)
    with (podResourceLimit GPUResourceName p).
  change (Legacy.podResourceLimitSum MemResourceName p)
    with (podResourceLimit MemResourceName p).
  change (Legacy.podsResourceLimitSum GPUResourceName (Pods nodeInfo))
    with (nodeResourceLimitSum GPUResourceName nodeInfo).
  change (Legacy.podsResourceLimitSum MemResourceName (Pods nodeInfo))
    with (nodeResourceLimitSum MemResourceName nodeInfo).
  destruct (podResourceLimit GPUResourceName p) as [gl ge],
           (podResourceLimit MemResourceName p) as [ml me].
  simpl in Hg. subst ge. destruct me; cbn [negb andb].
  2: { by exists None, h. }
  destruct (Allocatable nodeInfo !! GPUResourceName) as [ga|] eqn:Hga.
  2: { by eexists _, h. }
  rewrite Hma. change (default resource.zero (Some ma)) with ma.
  set (gsum := resource.Cmp (resource.Add
                 (nodeResourceLimitSum GPUResourceName nodeInfo) gl) ga).
  set (msum := resource.Cmp (resource.Add
                 (nodeResourceLimitSum MemResourceName nodeInfo) ml) ma).
  assert (Hbad : ∀ msg, NewGPUNode nodeInfo h = Panic msg →
            ∀ h', (if 0 <? gsum
                   then mret (Some (NewStatus Unschedulable
                                      ("insufficient resource " +:+ GPUResourceName)))
                   else if 0 <? msum
                   then mret (Some (NewStatus Unschedulable
                                      ("insufficient resource " +:+ MemResourceName)))
                   else no ← NewGPUNode nodeInfo;
                        indexes ← MemAssumeFitIndexes no ml;
                        if bool_decide (length indexes = 0%nat)
                        then mret (Some (NewStatus Unschedulable
                                           ("no fit indexes resource " +:+ MemResourceName)))
                        else mret None) h ≠ Ok (None, h')).
  { intros msg Hp h'. destruct (0 <? gsum); [done|]. destruct (0 <? msum); [done|].
    by rewrite (bind_Panic _ _ _ _ Hp). }
  destruct (resource.AsInt64 ga) as [gpuCnt|] eqn:Hgc.
  2: { unfold panic at 1. cbv beta iota. apply (Hbad "invalid gpu resource format").
       unfold NewGPUNode. rewrite Hga. simpl. by rewrite Hgc. }
  destruct (resource.AsInt64 ma) as [memCnt|] eqn:Hmc.
  2: { unfold panic at 1. cbv beta iota. apply (Hbad "invalid memory resource format").
       unfold NewGPUNode. rewrite Hga, Hma. simpl. by rewrite Hgc, Hmc. }
  destruct (Z.eqb_spec gpuCnt 0) as [Hz|Hnz].
  { unfold panic at 1. cbv beta iota. apply (Hbad "integer divide by zero").
    unfold NewGPUNode. rewrite Hga, Hma. simpl. rewrite Hgc, Hmc.
    by destruct (Z.eqb_spec gpuCnt 0). }
  pose proof (NewGPUNode_construct _ _ _ _ _ h Hga Hma Hgc Hmc Hnz) as Hnew.
  set (q := resource.NewQuantity (wrap64 (Z.quot memCnt gpuCnt))) in *.
  unfold mbind at 1, M_bind at 1, new at 1.
  destruct (0 <? gsum); [by eexists _, _|].
  destruct (0 <? msum); [by eexists _, _|].
  unfold mbind at 1, M_bind at 1.
  rewrite (resourceLimitSumIndexArray_usageOf gpuCnt (length h)).
  destruct (constructGPUs gpuCnt (length h) (Pods nodeInfo) (h ++ [q]))
    as [[gpus h2]|msg] eqn:Ec.
  2: { intros h'. by rewrite (bind_Panic _ _ _ _ Hnew). }
  destruct (NewGPUNode_Ok _ _ _ _ Hnew) as (g' & m' & Hg' & Hm' & _ & _ & Hb & Hcap).
  rewrite Hga in Hg'. rewrite Hma in Hm'. simpl in Hg', Hm'.
  rewrite Hgc in Hg'. rewrite Hmc in Hm'. injection Hg' as <-. injection Hm' as <-.
  simpl in Hb. fold q in Hcap.
  destruct (built_NoDup _ _ _ _ Hb) as (Hnd & Hmem & Hus).
  destruct (legacyFit_loop ml (length h) gpus h2 q 0) as (h3 & Efit); try done.
  { intros u Hu. by destruct (Hus u Hu). }
  unfold mbind at 1, M_bind at 1. rewrite Efit.
  destruct (MemAssumeFitIndexes_firstFit _ _ _ (mkGpuNode ga ma gpus) ml _ Hb Hcap)
    as (h4 & Emem & _).
  rewrite (bind_Ok _ _ _ _ _ Hnew), (bind_Ok _ _ _ _ _ Emem).
  pose proof (firstFit_nil ml q (view h2 (mkGpuNode ga ma gpus))) as Hnil.
  unfold view in Hnil. simpl in Hnil.
  change (view h2 (mkGpuNode ga ma gpus)) with (viewGPU h2 <$> gpus).
  destruct (List.filter (roomy ml q) (viewGPU h2 <$> gpus)) as [|u0 rest].
  - rewrite (proj2 Hnil eq_refl). simpl. by eexists _, _.
  - destruct (firstFit ml q (viewGPU h2 <$> gpus)) as [|i0 is0] eqn:Eff.
    { by pose proof (proj1 Hnil eq_refl). }
    simpl length.
    destruct (Z.eqb_spec (0 + Z.of_nat (S (length rest))) 0) as [|_]; [lia|].
    by exists None, h4.
Qed.

(** X15. The two versions of [Filter] agree on every workload that does not
    declare the exclusive resource, on a node that reports the memory
    resource: whenever the earlier version returns, the later one returns a
    status with the same code; and whenever the later one passes the
    workload, so does the earlier one. *)
Theorem Filter_agrees_with_Legacy (p : Pod) (nodeInfo : NodeInfo) :
  ¬ declared GPUResourceName p →
  is_Some (Allocatable nodeInfo !! MemResourceName) →
  (∀ r, run (Legacy.Filter p nodeInfo) = Ok r →
        ∃ r', run (Filter p nodeInfo) = Ok r' ∧ code <$> r' = code <$> r)
  ∧ (run (Filter p nodeInfo) = Ok None → run (Legacy.Filter p nodeInfo) = Ok None).
Proof.
  intros Hg Hm. pose proof (Filter_Legacy_core p nodeInfo [] Hg Hm) as H.
  unfold run. split.
  - intros r Hr. destruct (Legacy.Filter p nodeInfo []) as [[r0 h0]|msg]; [|done].
    injection Hr as ->. destruct H as (r' & h' & E & Hc).
    exists r'. by rewrite E.
  - intros Hf. destruct (Filter p nodeInfo []) as [[r1 h1]|msg1] eqn:E1; [|done].
    injection Hf as ->.
    destruct (Legacy.Filter p nodeInfo []) as [[r0 h0]|msg].
    + destruct H as (r' & h' & E & Hc). injection E as <- <-.
      by destruct r0.
    + by destruct (H h1).
Qed.

Lemma Filter_agrees_with_Legacy_witness :
  run (Legacy.Filter podA (machine 2 16 [limitPod MemResourceName 5 (Some "0")]))
  = Ok None
  ∧ ∃ r', run (Filter podA (machine 2 16 [limitPod MemResourceName 5 (Some "0")]))
          = Ok r' ∧ code <$> r' = None.
Proof.
  destruct (Filter_agrees_with_Legacy podA
              (machine 2 16 [limitPod MemResourceName 5 (Some "0")])) as [H _].
  - intros (c & Hc & Hs). apply list_elem_of_singleton in Hc as ->.
    vm_compute in Hs. by destruct Hs.
  - vm_compute. by eexists.
  - split; [vm_compute; reflexivity|]. apply (H None). vm_compute. reflexivity.
Defined.

(** X16. Whatever the earlier [Filter] passes on a node that reports the
    memory resource, the later [Filter] passes as well. *)
Theorem Legacy_pass_Filter_pass (p : Pod) (nodeInfo : NodeInfo) :
  is_Some (Allocatable nodeInfo !! MemResourceName) →
  run (Legacy.Filter p nodeInfo) = Ok None →
  run (Filter p nodeInfo) = Ok None.
Proof.
  intros Hm E.
  destruct (podResourceLimit GPUResourceName p) as [gl ge] eqn:Hgl.
  destruct ge.
  2: { assert (Hg : ¬ declared GPUResourceName p).
       { intros Hd. apply podResourceLimit_exist in Hd. by rewrite Hgl in Hd. }
       pose proof (Filter_Legacy_core p nodeInfo [] Hg Hm) as H.
       unfold run in *.
       destruct (Legacy.Filter p nodeInfo []) as [[r0 h0]|msg]; [|done].
       injection E as ->. destruct H as (r' & h' & -> & Hc). by destruct r'. }
  destruct Hm as [ma Hma]. unfold run, Legacy.Filter, Filter in *.
  change (Legacy.podResourceLimitSum GPUResourceName p)
    with (podResourceLimit GPUResourceName p) in E.
  change (Legacy.podResourceLimitSum MemResourceName p)
    with (podResourceLimit MemResourceName p) in E.
  change (Legacy.podsResourceLimitSum GPUResourceName (Pods nodeInfo))
    with (nodeResourceLimitSum GPUResourceName nodeInfo) in E.
  change (Legacy.podsResourceLimitSum MemResourceName (Pods nodeInfo))
    with (nodeResourceLimitSum MemResourceName nodeInfo) in E.
  rewrite Hgl in *.
  destruct (podResourceLimit MemResourceName p) as [ml me].
  destruct me; cbn [negb andb] in *; [done|].
  destruct (Allocatable nodeInfo !! GPUResourceName) as [ga|] eqn:Hga; [|done].
  rewrite Hma in *. change (default resource.zero (Some ma)) with ma in E.
  destruct (resource.AsInt64 ga) as [gpuCnt|] eqn:Hgc; [|done].
  destruct (resource.AsInt64 ma) as [memCnt|] eqn:Hmc; [|done].
  destruct (Z.eqb_spec gpuCnt 0) as [Hz|Hnz]; [done|].
  pose proof (NewGPUNode_construct _ _ _ _ _ [] Hga Hma Hgc Hmc Hnz) as Hnew.
  unfold mbind at 1, M_bind at 1, new at 1 in E.
  destruct (0 <? _); [done|]. destruct (0 <? _); [done|].
  unfold mbind at 1, M_bind at 1 in E.
  rewrite (resourceLimitSumIndexArray_usageOf gpuCnt (length ([] : Heap))) in E.
  destruct (constructGPUs gpuCnt _ (Pods nodeInfo) _) as [[gpus h2]|msg]; [|done].
  by rewrite (bind_Ok _ _ _ _ _ Hnew).
Qed.

Lemma Legacy_pass_Filter_pass_witness :
  run (Filter podC (machine 2 16 [limitPod MemResourceName 5 (Some "0")])) = Ok None.
Proof.
  apply Legacy_pass_Filter_pass.
  - vm_compute. by eexists.
  - vm_compute. reflexivity.
Defined.
